(** * AmigoChat: the on-chain registry and messaging ledger

    A shallow embedding of [contracts/AmigoChat.sol].  Contract storage is a
    record, Solidity mappings are finite maps read with the EVM's zero
    default, storage arrays are lists, and every external function is a
    computation in a small state-and-failure monad that follows the source
    statement by statement.  A transaction either commits the state its
    computation ends in or, when a [require] fails or checked arithmetic
    panics, leaves the ledger as it was. *)

From Stdlib Require Import NArith.
From stdpp Require Import gmap strings list fin_maps.

Open Scope N_scope.

(** ** Value types *)

(** [address] is a 160-bit unsigned integer, [uint256] a 256-bit one.  The
    contract only compares addresses ([==], [<]) and only increments and
    decrements counters, so both are carried as [N]; the counters use the
    checked arithmetic of Solidity 0.8 (see [checked_inc]). *)
Abbreviation address := N (only parsing).
Abbreviation uint256 := N (only parsing).
Abbreviation bytes32 := N (only parsing).

Definition MAX_UINT256 : N := 2 ^ 256 - 1.

(** [address(0)] *)
Definition address0 : N := 0.

(** [bytes(s).length] *)
Definition bytes_length (s : string) : N := N.of_nat (String.length s).

(** ** Structs *)

Record UserProfile := mkUserProfile {
  username : string;
  ipfsProfilePicHash : string;
  isRegistered : bool;
  registrationTimestamp : N;
  totalMessagesSent : N
}.

Record Message := mkMessage {
  sender : N;
  content : string;
  timestamp : N;
  messageId : N
}.

Record DirectMessage := mkDirectMessage {
  dm_sender : N;
  dm_receiver : N;
  dm_content : string;
  dm_timestamp : N;
  isRead : bool
}.

(** ** Events *)

Inductive Event :=
| UserRegistered (userAddress : N) (name : string) (picHash : string) (time : N)
| UsernameChanged (userAddress : N) (oldUsername newUsername : string) (time : N)
| MessageSent (from : N) (text : string) (time : N) (id : N)
| DirectMessageSent (from to : N) (text : string) (time : N).

(** ** Contract storage

    Storage arrays are lists, so [push] is an append; the EVM's bound of
    2^256 - 1 on an array's length is not modelled.  The counters next to
    the arrays are checked, as in the source. *)

Record State := mkState {
  owner : N;
  totalUsers : N;
  totalMessages : N;
  priceFeedBTCUSD : N;
  priceFeedETHUSD : N;
  priceFeedLINKUSD : N;
  users : gmap N UserProfile;
  usernameToAddress : gmap string N;
  userMessages : gmap N (list N);
  conversations : gmap N (list DirectMessage);
  userConversations : gmap N (list N);
  generalChatMessages : list Message;
  registeredUsers : list N;
  (** the log of emitted events, oldest first *)
  events : list Event
}.

(** The value a mapping of the EVM holds at a key never written: all zero. *)
Definition zero_profile : UserProfile := mkUserProfile EmptyString EmptyString false 0 0.

(** [users[a]] *)
Definition users_at (s : State) (a : N) : UserProfile :=
  default zero_profile (users s !! a).

(** [usernameToAddress[u]] *)
Definition usernameToAddress_at (s : State) (u : string) : N :=
  default address0 (usernameToAddress s !! u).

(** [conversations[h]] *)
Definition conversations_at (s : State) (h : N) : list DirectMessage :=
  default [] (conversations s !! h).

(** [userConversations[a]] *)
Definition userConversations_at (s : State) (a : N) : list N :=
  default [] (userConversations s !! a).

(** Field updates. *)
Definition set_owner (v : N) (s : State) : State :=
  mkState v (totalUsers s) (totalMessages s) (priceFeedBTCUSD s)
    (priceFeedETHUSD s) (priceFeedLINKUSD s) (users s) (usernameToAddress s)
    (userMessages s) (conversations s) (userConversations s)
    (generalChatMessages s) (registeredUsers s) (events s).

Definition set_totalUsers (v : N) (s : State) : State :=
  mkState (owner s) v (totalMessages s) (priceFeedBTCUSD s)
    (priceFeedETHUSD s) (priceFeedLINKUSD s) (users s) (usernameToAddress s)
    (userMessages s) (conversations s) (userConversations s)
    (generalChatMessages s) (registeredUsers s) (events s).

Definition set_totalMessages (v : N) (s : State) : State :=
  mkState (owner s) (totalUsers s) v (priceFeedBTCUSD s)
    (priceFeedETHUSD s) (priceFeedLINKUSD s) (users s) (usernameToAddress s)
    (userMessages s) (conversations s) (userConversations s)
    (generalChatMessages s) (registeredUsers s) (events s).

Definition set_priceFeeds (b e l : N) (s : State) : State :=
  mkState (owner s) (totalUsers s) (totalMessages s) b e l
    (users s) (usernameToAddress s)
    (userMessages s) (conversations s) (userConversations s)
    (generalChatMessages s) (registeredUsers s) (events s).

Definition set_users (v : gmap N UserProfile) (s : State) : State :=
  mkState (owner s) (totalUsers s) (totalMessages s) (priceFeedBTCUSD s)
    (priceFeedETHUSD s) (priceFeedLINKUSD s) v (usernameToAddress s)
    (userMessages s) (conversations s) (userConversations s)
    (generalChatMessages s) (registeredUsers s) (events s).

Definition set_usernameToAddress (v : gmap string N) (s : State) : State :=
  mkState (owner s) (totalUsers s) (totalMessages s) (priceFeedBTCUSD s)
    (priceFeedETHUSD s) (priceFeedLINKUSD s) (users s) v
    (userMessages s) (conversations s) (userConversations s)
    (generalChatMessages s) (registeredUsers s) (events s).

Definition set_conversations (v : gmap N (list DirectMessage)) (s : State) : State :=
  mkState (owner s) (totalUsers s) (totalMessages s) (priceFeedBTCUSD s)
    (priceFeedETHUSD s) (priceFeedLINKUSD s) (users s) (usernameToAddress s)
    (userMessages s) v (userConversations s)
    (generalChatMessages s) (registeredUsers s) (events s).

Definition set_userConversations (v : gmap N (list N)) (s : State) : State :=
  mkState (owner s) (totalUsers s) (totalMessages s) (priceFeedBTCUSD s)
    (priceFeedETHUSD s) (priceFeedLINKUSD s) (users s) (usernameToAddress s)
    (userMessages s) (conversations s) v
    (generalChatMessages s) (registeredUsers s) (events s).

Definition set_generalChatMessages (v : list Message) (s : State) : State :=
  mkState (owner s) (totalUsers s) (totalMessages s) (priceFeedBTCUSD s)
    (priceFeedETHUSD s) (priceFeedLINKUSD s) (users s) (usernameToAddress s)
    (userMessages s) (conversations s) (userConversations s)
    v (registeredUsers s) (events s).

Definition set_registeredUsers (v : list N) (s : State) : State :=
  mkState (owner s) (totalUsers s) (totalMessages s) (priceFeedBTCUSD s)
    (priceFeedETHUSD s) (priceFeedLINKUSD s) (users s) (usernameToAddress s)
    (userMessages s) (conversations s) (userConversations s)
    (generalChatMessages s) v (events s).

Definition set_events (v : list Event) (s : State) : State :=
  mkState (owner s) (totalUsers s) (totalMessages s) (priceFeedBTCUSD s)
    (priceFeedETHUSD s) (priceFeedLINKUSD s) (users s) (usernameToAddress s)
    (userMessages s) (conversations s) (userConversations s)
    (generalChatMessages s) (registeredUsers s) v.

(** ** The transaction monad *)

(** A call stops either at a failed [require], with its message, or at a
    [Panic] of checked arithmetic. *)
Inductive Failure :=
| Revert (reason : string)
| Panic (code : N).

Inductive Outcome (A : Type) :=
| Done (a : A)
| Abort (f : Failure).
Arguments Done {A} a.
Arguments Abort {A} f.

(** A computation returns its outcome together with the storage it had
    reached when it stopped; what becomes of that storage on a failure is
    decided by [transact]. *)
Definition Tx (A : Type) : Type := State -> Outcome A * State.

Definition tx_ret {A} (a : A) : Tx A := fun s => (Done a, s).

Definition tx_bind {A B} (k : A -> Tx B) (m : Tx A) : Tx B :=
  fun s => match m s with
           | (Done a, s') => k a s'
           | (Abort f, s') => (Abort f, s')
           end.

(** With these instances the contract's functions are written in stdpp's
    monadic notation: [x ← m; k] and [m;; k]. *)
#[global] Instance Tx_ret : MRet Tx := @tx_ret.
#[global] Instance Tx_bind : MBind Tx := @tx_bind.

Definition get : Tx State := fun s => (Done s, s).
Definition modify (f : State -> State) : Tx unit := fun s => (Done tt, f s).

Definition require (b : bool) (reason : string) : Tx unit :=
  fun s => if b then (Done tt, s) else (Abort (Revert reason), s).

Definition panic {A} (code : N) : Tx A := fun s => (Abort (Panic code), s).

(** [x + 1] on [uint256]: Solidity 0.8 panics with code 0x11 on overflow. *)
Definition checked_inc (x : N) : Tx N :=
  if x <? MAX_UINT256 then tx_ret (x + 1) else panic 17.

(** [x - 1] on [uint256], panicking on underflow. *)
Definition checked_dec (x : N) : Tx N :=
  if 0 <? x then tx_ret (x - 1) else panic 17.

Definition emit (e : Event) : Tx unit :=
  modify (fun s => set_events (events s ++ [e]) s).

(** The transaction context: [msg.sender] and [block.timestamp]. *)
Record Env := mkEnv {
  msg_sender : N;
  block_timestamp : N
}.

(** ** Modifiers *)

Definition onlyOwner (env : Env) : Tx unit :=
  s ← get;
  require (msg_sender env =? owner s)
          "Only contract owner can call this function".

Definition onlyRegisteredUser (env : Env) : Tx unit :=
  s ← get;
  require (isRegistered (users_at s (msg_sender env)))
          "User must be registered to perform this action".

Definition validUsername (_username : string) : Tx unit :=
  require (0 <? bytes_length _username) "Username cannot be empty";;
  require (bytes_length _username <=? 50)
          "Username too long (max 50 characters)".

Definition validMessage (_content : string) : Tx unit :=
  require (0 <? bytes_length _content) "Message cannot be empty";;
  require (bytes_length _content <=? 1000)
          "Message too long (max 1000 characters)".

(** ** Constructor *)

Definition constructor (deployer _priceFeedBTCUSD _priceFeedETHUSD
                        _priceFeedLINKUSD : N) : State :=
  mkState deployer 0 0 _priceFeedBTCUSD _priceFeedETHUSD _priceFeedLINKUSD
          ∅ ∅ ∅ ∅ ∅ [] [] [].

(** ** User management *)

Definition registerUser (env : Env) (_username _ipfsProfilePicHash : string)
  : Tx unit :=
  validUsername _username;;
  s ← get;
  require (negb (isRegistered (users_at s (msg_sender env))))
          "User is already registered";;
  require (usernameToAddress_at s _username =? address0)
          "Username is already taken";;
  modify (fun s => set_users
    (<[msg_sender env :=
         mkUserProfile _username _ipfsProfilePicHash true
                       (block_timestamp env) 0]> (users s)) s);;
  modify (fun s => set_usernameToAddress
    (<[_username := msg_sender env]> (usernameToAddress s)) s);;
  modify (fun s => set_registeredUsers
    (registeredUsers s ++ [msg_sender env]) s);;
  s ← get;
  n ← checked_inc (totalUsers s);
  modify (set_totalUsers n);;
  emit (UserRegistered (msg_sender env) _username _ipfsProfilePicHash
                       (block_timestamp env)).

Definition isUsernameAvailable (s : State) (_username : string) : bool :=
  usernameToAddress_at s _username =? address0.

Definition isUserRegistered (s : State) (_userAddress : N) : bool :=
  isRegistered (users_at s _userAddress).

Definition changeUsername (env : Env) (_newUsername : string) : Tx unit :=
  onlyRegisteredUser env;;
  validUsername _newUsername;;
  s ← get;
  require (usernameToAddress_at s _newUsername =? address0)
          "Username is already taken";;
  let oldUsername := username (users_at s (msg_sender env)) in
  modify (fun s => set_usernameToAddress
    (delete oldUsername (usernameToAddress s)) s);;
  modify (fun s =>
    let p := users_at s (msg_sender env) in
    set_users
      (<[msg_sender env :=
           mkUserProfile _newUsername (ipfsProfilePicHash p) (isRegistered p)
                         (registrationTimestamp p) (totalMessagesSent p)]>
         (users s)) s);;
  modify (fun s => set_usernameToAddress
    (<[_newUsername := msg_sender env]> (usernameToAddress s)) s);;
  emit (UsernameChanged (msg_sender env) oldUsername _newUsername
                        (block_timestamp env)).

Definition updateProfilePicture (env : Env) (_ipfsProfilePicHash : string)
  : Tx unit :=
  onlyRegisteredUser env;;
  modify (fun s =>
    let p := users_at s (msg_sender env) in
    set_users
      (<[msg_sender env :=
           mkUserProfile (username p) _ipfsProfilePicHash (isRegistered p)
                         (registrationTimestamp p) (totalMessagesSent p)]>
         (users s)) s).

Definition getUserProfile (s : State) (_userAddress : N) : UserProfile :=
  users_at s _userAddress.

Definition getAllRegisteredUsers (s : State) : list N := registeredUsers s.

(** ** Chat *)

Definition sendMessage (env : Env) (_content : string) : Tx unit :=
  onlyRegisteredUser env;;
  validMessage _content;;
  s ← get;
  let newMessage :=
    mkMessage (msg_sender env) _content (block_timestamp env)
              (totalMessages s) in
  modify (fun s => set_generalChatMessages
    (generalChatMessages s ++ [newMessage]) s);;
  s ← get;
  let p := users_at s (msg_sender env) in
  c ← checked_inc (totalMessagesSent p);
  modify (fun s => set_users
    (<[msg_sender env :=
         mkUserProfile (username p) (ipfsProfilePicHash p) (isRegistered p)
                       (registrationTimestamp p) c]> (users s)) s);;
  s ← get;
  n ← checked_inc (totalMessages s);
  modify (set_totalMessages n);;
  s ← get;
  id ← checked_dec (totalMessages s);
  emit (MessageSent (msg_sender env) _content (block_timestamp env) id).

(** The loop of [isInConversation] over the partner array, returning at the
    first match. *)
Fixpoint isInConversation_loop (conversations_user1 : list N) (_user2 : N)
  : bool :=
  match conversations_user1 with
  | [] => false
  | x :: rest =>
      if x =? _user2 then true else isInConversation_loop rest _user2
  end.

Definition isInConversation (s : State) (_user1 _user2 : N) : bool :=
  isInConversation_loop (userConversations_at s _user1) _user2.

Definition getGeneralChatMessages (s : State) : list Message :=
  generalChatMessages s.

Definition getUserConversations (s : State) (_user : N) : list N :=
  userConversations_at s _user.

Definition getContractStats (s : State) : N * N * N :=
  (totalUsers s, totalMessages s, owner s).

(** The price getters ([getLatestPriceBTCUSD] and its siblings,
    [getAllPrices]) are views that forward to the external oracle contracts
    and touch no storage; they are left out, the feed addresses they use are
    kept in the state. *)

(** ** Administration *)

Definition emergencyStop (env : Env) : Tx unit :=
  onlyOwner env.

Definition transferOwnership (env : Env) (_newOwner : N) : Tx unit :=
  onlyOwner env;;
  require (negb (_newOwner =? address0)) "New owner cannot be zero address";;
  modify (set_owner _newOwner).

Definition updatePriceFeeds (env : Env) (_priceFeedBTCUSD _priceFeedETHUSD
                             _priceFeedLINKUSD : N) : Tx unit :=
  onlyOwner env;;
  modify (set_priceFeeds _priceFeedBTCUSD _priceFeedETHUSD _priceFeedLINKUSD).

(** ** Direct messages and the transaction semantics

    The conversation key is [keccak256(abi.encodePacked(x, y))].  The hash is
    a primitive of the EVM, not code of the contract, so the ledger is
    developed over an interface that supplies an arbitrary function of the
    two packed addresses; nothing below relies on it being free of
    collisions. *)
Class Keccak256 := keccak256_packed : N -> N -> N.

Section Ledger.

Context {keccak : Keccak256}.

(** [a < b ? keccak256(abi.encodePacked(a, b)) : keccak256(abi.encodePacked(b, a))] *)
Definition conversationHash (a b : N) : N :=
  if a <? b then keccak256_packed a b else keccak256_packed b a.

Definition sendDirectMessage (env : Env) (_receiver : N) (_content : string)
  : Tx unit :=
  onlyRegisteredUser env;;
  validMessage _content;;
  s ← get;
  require (isRegistered (users_at s _receiver)) "Receiver must be registered";;
  let h := conversationHash (msg_sender env) _receiver in
  let newDM :=
    mkDirectMessage (msg_sender env) _receiver _content
                    (block_timestamp env) false in
  modify (fun s => set_conversations
    (<[h := conversations_at s h ++ [newDM]]> (conversations s)) s);;
  s ← get;
  (if negb (isInConversation s (msg_sender env) _receiver) then
     modify (fun s => set_userConversations
       (<[msg_sender env := userConversations_at s (msg_sender env) ++ [_receiver]]>
          (userConversations s)) s);;
     modify (fun s => set_userConversations
       (<[_receiver := userConversations_at s _receiver ++ [msg_sender env]]>
          (userConversations s)) s)
   else mret tt);;
  emit (DirectMessageSent (msg_sender env) _receiver _content
                          (block_timestamp env)).

Definition getConversation (s : State) (_user1 _user2 : N)
  : list DirectMessage :=
  conversations_at s (conversationHash _user1 _user2).

(** The state-changing entry points of the contract. *)
Inductive Call :=
| RegisterUser (_username _ipfsProfilePicHash : string)
| ChangeUsername (_newUsername : string)
| UpdateProfilePicture (_ipfsProfilePicHash : string)
| SendMessage (_content : string)
| SendDirectMessage (_receiver : N) (_content : string)
| EmergencyStop
| TransferOwnership (_newOwner : N)
| UpdatePriceFeeds (_priceFeedBTCUSD _priceFeedETHUSD _priceFeedLINKUSD : N).

Definition dispatch (env : Env) (c : Call) : Tx unit :=
  match c with
  | RegisterUser u h => registerUser env u h
  | ChangeUsername u => changeUsername env u
  | UpdateProfilePicture h => updateProfilePicture env h
  | SendMessage m => sendMessage env m
  | SendDirectMessage r m => sendDirectMessage env r m
  | EmergencyStop => emergencyStop env
  | TransferOwnership o => transferOwnership env o
  | UpdatePriceFeeds b e l => updatePriceFeeds env b e l
  end.

(** How the call ended, and the storage the code had reached at that point. *)
Definition outcome (s : State) (env : Env) (c : Call) : Outcome unit :=
  fst (dispatch env c s).

Definition raw_state (s : State) (env : Env) (c : Call) : State :=
  snd (dispatch env c s).

Definition succeeds (s : State) (env : Env) (c : Call) : bool :=
  match outcome s env c with Done _ => true | Abort _ => false end.

(** A transaction is atomic: a call that ends normally commits the storage it
    reached, a call that reverts or panics leaves the storage it started
    from. *)
Definition transact (s : State) (env : Env) (c : Call) : State :=
  match dispatch env c s with
  | (Done _, s') => s'
  | (Abort _, _) => s
  end.

(** A run of transactions, oldest first. *)
Fixpoint run (s : State) (txs : list (Env * Call)) : State :=
  match txs with
  | [] => s
  | (env, c) :: rest => run (transact s env c) rest
  end.

(** The calls of a run that ended normally, in order. *)
Fixpoint successes (s : State) (txs : list (Env * Call)) : list (Env * Call) :=
  match txs with
  | [] => []
  | (env, c) :: rest =>
      if succeeds s env c
      then (env, c) :: successes (transact s env c) rest
      else successes (transact s env c) rest
  end.

(** The registrations among a list of calls: who registered which name. *)
Fixpoint registrations (txs : list (Env * Call)) : list (N * string) :=
  match txs with
  | [] => []
  | (env, RegisterUser u _) :: rest => (msg_sender env, u) :: registrations rest
  | _ :: rest => registrations rest
  end.

Definition is_register (c : Call) : bool :=
  match c with RegisterUser _ _ => true | _ => false end.

(** No account has the key of [address(0)], and a contract calls from its own
    address, so the sender of a transaction is never zero. *)
Definition signed (tx : Env * Call) : Prop := msg_sender (fst tx) ≠ address0.

(** The states of the ledger: the freshly deployed contract, and whatever a
    transaction makes of a reachable state. *)
Inductive reachable : State -> Prop :=
| reachable_deploy deployer b e l :
    reachable (constructor deployer b e l)
| reachable_transact s env c :
    reachable s -> msg_sender env ≠ address0 ->
    reachable (transact s env c).

End Ledger.

(** A stand-in for the hash in concrete runs: the two packed addresses read
    as one 320-bit number. *)
Definition packed_pair : Keccak256 := fun a b => a * 2 ^ 160 + b.

(** ** Properties of ledger states *)

(** How often [x] occurs in a partner list. *)
Definition occurrences (x : N) (l : list N) : nat := count_occ N.eq_dec l x.

(** The username index points back at every registered profile, and no
    profile belongs to [address(0)]. *)
Definition index_consistent (s : State) : Prop :=
  forall a, isRegistered (users_at s a) = true ->
    a <> address0 /\ usernameToAddress_at s (username (users_at s a)) = a.

(** No two registered profiles share a username. *)
Definition usernames_unique (s : State) : Prop :=
  forall a b,
    isRegistered (users_at s a) = true ->
    isRegistered (users_at s b) = true ->
    username (users_at s a) = username (users_at s b) -> a = b.

(** The two global counters agree with the lengths of their arrays. *)
Definition counters_consistent (s : State) : Prop :=
  totalUsers s = N.of_nat (length (registeredUsers s)) /\
  totalMessages s = N.of_nat (length (generalChatMessages s)).

(** The message at position [i] of the general channel has id [i]. *)
Definition ids_sequential (s : State) : Prop :=
  forall (i : nat) m,
    generalChatMessages s !! i = Some m -> messageId m = N.of_nat i.

(** [b] is listed for [a] as often as [a] is listed for [b], and two
    different addresses list each other at most once. *)
Definition partners_symmetric (s : State) : Prop :=
  forall a b,
    occurrences b (userConversations_at s a)
    = occurrences a (userConversations_at s b).

Definition partners_distinct_once (s : State) : Prop :=
  forall a b, a <> b ->
    (occurrences b (userConversations_at s a) <= 1)%nat.

(** Everything that holds of every reachable ledger. *)
Record ledger_invariant (s : State) : Prop := {
  inv_index : index_consistent s;
  inv_counters : counters_consistent s;
  inv_ids : ids_sequential s;
  inv_symmetric : partners_symmetric s;
  inv_once : partners_distinct_once s
}.

(** The rejection condition of [changeUsername] as the specification words
    it: unregistered caller, invalid name, or a name claimed by a different
    address. *)
Definition changeUsername_rejects_as_specified
    (s : State) (a : N) (u : string) : Prop :=
  isUserRegistered s a = false \/
  bytes_length u = 0 \/ 50 < bytes_length u \/
  (usernameToAddress_at s u <> address0 /\ usernameToAddress_at s u <> a).

(** The rejection condition the contract implements: the name must be
    unclaimed, whoever holds it. *)
Definition changeUsername_rejects (s : State) (a : N) (u : string) : Prop :=
  isUserRegistered s a = false \/
  bytes_length u = 0 \/ 50 < bytes_length u \/
  usernameToAddress_at s u <> address0.

Definition is_changeUsername (c : Call) : bool :=
  match c with ChangeUsername _ => true | _ => false end.

(** ** Concrete ledgers used in examples *)

Definition fresh : State := constructor 9 101 102 103.

Definition at_time (a : N) : Env := mkEnv a 1700000000.

(** [alice] (address 1) and [bob] (address 2) have registered. *)
Definition two_users : State :=
  run (keccak := packed_pair) fresh
    [(at_time 1, RegisterUser "alice" "ref1");
     (at_time 2, RegisterUser "bob" "ref2")].

(** A name is registered, released by a change of username, and registered
    again by someone else. *)
Definition reclaim_run : list (Env * Call) :=
  [(at_time 1, RegisterUser "alice" "ref1");
   (at_time 1, ChangeUsername "al");
   (at_time 3, RegisterUser "alice" "ref3")].

(** The scenario of the specification: the second claim of [alice] fails. *)
Definition scenario_run : list (Env * Call) :=
  [(at_time 1, RegisterUser "alice" "ref1");
   (at_time 2, RegisterUser "alice" "ref2");
   (at_time 2, RegisterUser "bob" "ref2");
   (at_time 1, SendMessage "hi");
   (at_time 2, SendMessage "hello")].

(** [alice] and [bob] have written to each other. *)
Definition chatting : State :=
  run (keccak := packed_pair) two_users
    [(at_time 1, SendDirectMessage 2 "yo");
     (at_time 2, SendDirectMessage 1 "hey")].

(** [alice] has sent a direct message to herself. *)
Definition note_to_self : State :=
  transact (keccak := packed_pair) two_users (at_time 1)
    (SendDirectMessage 1 "note").

(** A string of [n] letters. *)
Fixpoint letters (n : nat) : string :=
  match n with
  | O => EmptyString
  | S k => String (Ascii.ascii_of_nat 97) (letters k)
  end.

(** ** Further observations on ledger states *)

(** How many messages of the general channel were sent by [a]. *)
Fixpoint messages_by (a : N) (l : list Message) : nat :=
  match l with
  | [] => O
  | m :: rest =>
      if sender m =? a then S (messages_by a rest) else messages_by a rest
  end.

(** The addresses announced by the [UserRegistered] events of a log, and
    the messages announced by its [MessageSent] events, oldest first. *)
Fixpoint registered_from_events (l : list Event) : list N :=
  match l with
  | [] => []
  | UserRegistered a _ _ _ :: rest => a :: registered_from_events rest
  | _ :: rest => registered_from_events rest
  end.

Fixpoint messages_from_events (l : list Event) : list Message :=
  match l with
  | [] => []
  | MessageSent a c t i :: rest =>
      mkMessage a c t i :: messages_from_events rest
  | _ :: rest => messages_from_events rest
  end.

(** The entry points that end in an [emit]. *)
Definition emits (c : Call) : bool :=
  match c with
  | RegisterUser _ _ | ChangeUsername _ | SendMessage _
  | SendDirectMessage _ _ => true
  | _ => false
  end.

(** The entry points guarded by [onlyOwner]. *)
Definition owner_only (c : Call) : bool :=
  match c with
  | EmergencyStop | TransferOwnership _ | UpdatePriceFeeds _ _ _ => true
  | _ => false
  end.

(** ** Price feeds

    [AggregatorV3Interface] is an external contract: a call of
    [latestRoundData] at an address either answers with
    [(roundId, answer, startedAt, updatedAt, answeredInRound)] or fails, and
    a failed external call reverts the view that made it. *)
Class Aggregators := latestRoundData : N -> option (N * Z * N * N * N).

Section Prices.

Context {oracle : Aggregators}.

Definition latestAnswer (feed : N) : option Z :=
  match latestRoundData feed with
  | Some (_, price, _, _, _) => Some price
  | None => None
  end.

Definition getLatestPriceBTCUSD (s : State) : option Z :=
  latestAnswer (priceFeedBTCUSD s).

Definition getLatestPriceETHUSD (s : State) : option Z :=
  latestAnswer (priceFeedETHUSD s).

Definition getLatestPriceLINKUSD (s : State) : option Z :=
  latestAnswer (priceFeedLINKUSD s).

Definition getAllPrices (s : State) : option (Z * Z * Z) :=
  btcPrice ← getLatestPriceBTCUSD s;
  ethPrice ← getLatestPriceETHUSD s;
  linkPrice ← getLatestPriceLINKUSD s;
  Some (btcPrice, ethPrice, linkPrice).

End Prices.

(** An oracle for concrete runs: feed 101 answers, feed 102 answers with a
    negative price, every other address has no aggregator. *)
Definition two_feeds : Aggregators := fun feed =>
  if feed =? 101 then Some (7, 6500000000000%Z, 1, 2, 7)
  else if feed =? 102 then Some (3, (-5)%Z, 1, 2, 3)
  else None.

(** [s'] keeps everything [s] has stored in its arrays, in place: each
    array of [s] is an initial segment of the same array of [s']. *)
Definition extends (s s' : State) : Prop :=
  generalChatMessages s `prefix_of` generalChatMessages s' /\
  registeredUsers s `prefix_of` registeredUsers s' /\
  events s `prefix_of` events s' /\
  (forall h, conversations_at s h `prefix_of` conversations_at s' h) /\
  (forall a, userConversations_at s a `prefix_of` userConversations_at s' a).

(** ** The client: route guard and picture URLs

    [ProtectedRoute] (components/ProtectedRoute.jsx) decides what a guarded
    route shows.  Its render is a function of its two props, of the values
    its hooks return in that render, and of the location; the values are
    taken by their truthiness. *)
Inductive View :=
| LoadingScreen
| VerifyingScreen
| NavigateTo (to : string)
| Children.

Definition ProtectedRoute
    (requireConnection requireRegistration : bool)
    (isConnecting isConnected isCheckingRegistration isRegistered
     hasCheckedRequirements : bool)
    (pathname : string) (fromPathname : option string) : View :=
  if isConnecting || (requireRegistration && isCheckingRegistration)
     || negb hasCheckedRequirements
  then LoadingScreen
  else if requireConnection && negb isConnected
  then NavigateTo "/"
  else if requireRegistration && isConnected && negb isRegistered
  then
    let comingFromRegister :=
      bool_decide (fromPathname = Some "/register") in
    if comingFromRegister && negb hasCheckedRequirements
    then VerifyingScreen
    else NavigateTo "/register"
  else if bool_decide (pathname = "/register") && isConnected && isRegistered
  then NavigateTo "/chat"
  else Children.

(** JavaScript strings are sequences of UTF-16 code units. *)
Definition code_units (s : string) : list N :=
  map (fun c => N.of_nat (Ascii.nat_of_ascii c)) (String.list_ascii_of_string s).

(** [s] without the prefix [pat], if it starts with it. *)
Fixpoint strip_prefix (pat s : list N) : option (list N) :=
  match pat, s with
  | [], _ => Some s
  | p :: pat', c :: s' => if p =? c then strip_prefix pat' s' else None
  | _ :: _, [] => None
  end.

(** [s.includes(pat)] *)
Fixpoint includes (pat s : list N) : bool :=
  match strip_prefix pat s with
  | Some _ => true
  | None =>
      match s with
      | [] => false
      | _ :: s' => includes pat s'
      end
  end.

(** [s.replace(pat, "")] for a string pattern: the first occurrence of
    [pat] is cut out, wherever it is. *)
Fixpoint replace_first (pat s : list N) : list N :=
  match strip_prefix pat s with
  | Some rest => rest
  | None =>
      match s with
      | [] => []
      | c :: s' => c :: replace_first pat s'
      end
  end.

(** [getIPFSUrl] (utils/ipfs.js); [IPFS_GATEWAY] comes from the build
    environment.  [None] is JavaScript's [null]. *)
Definition getIPFSUrl (IPFS_GATEWAY ipfsHash : list N) : option (list N) :=
  match ipfsHash with
  | [] => None
  | _ =>
      let cleanHash := replace_first (code_units "ipfs://") ipfsHash in
      Some (IPFS_GATEWAY ++ cleanHash)
  end.

(** What [handleRegistration] (pages/RegisterPage.jsx) passes to
    [registerUser] as picture reference for an uploaded hash. *)
Definition registered_reference (ipfsHash : list N) : list N :=
  code_units "ipfs://" ++ ipfsHash.

(** The ledger after the scenario of the specification. *)
Definition after_scenario : State :=
  run (keccak := packed_pair) fresh scenario_run.

(** * Verification *)

(** ** Symbolic execution of the entry points *)

Ltac tx_unfold :=
  unfold registerUser, changeUsername, updateProfilePicture, sendMessage,
    sendDirectMessage, emergencyStop, transferOwnership, updatePriceFeeds,
    onlyOwner, onlyRegisteredUser, validUsername, validMessage,
    emit, checked_inc, checked_dec, panic, require, modify, get,
    mbind, mret, Tx_bind, Tx_ret, tx_bind, tx_ret in *.

Ltac st_simpl :=
  unfold set_owner, set_totalUsers, set_totalMessages, set_priceFeeds,
    set_users, set_usernameToAddress, set_conversations,
    set_userConversations, set_generalChatMessages, set_registeredUsers,
    set_events, isInConversation, users_at, usernameToAddress_at,
    conversations_at, userConversations_at in *;
  cbn [owner totalUsers totalMessages priceFeedBTCUSD priceFeedETHUSD
       priceFeedLINKUSD users usernameToAddress userMessages conversations
       userConversations generalChatMessages registeredUsers events
       fst snd] in *.

Ltac tx_cases :=
  repeat match goal with
         | |- context [if ?b then _ else _] => destruct b eqn:?; try done
         | H : context [if ?b then _ else _] |- _ =>
             destruct b eqn:?; try done
         end.

Ltac tx_run := tx_unfold; st_simpl; tx_cases; st_simpl.

Ltac bool_facts :=
  repeat match goal with
         | H : (_ <? _) = true |- _ => apply N.ltb_lt in H
         | H : (_ <=? _) = true |- _ => apply N.leb_le in H
         | H : (_ =? _) = true |- _ => apply N.eqb_eq in H
         | H : (_ <? _) = false |- _ => apply N.ltb_ge in H
         | H : (_ <=? _) = false |- _ => apply N.leb_gt in H
         | H : (_ =? _) = false |- _ => apply N.eqb_neq in H
         | H : negb _ = true |- _ => apply negb_true_iff in H
         | H : negb _ = false |- _ => apply negb_false_iff in H
         end.

Ltac tx_close H :=
  try congruence;
  cbv zeta;
  repeat match goal with
         | Hb : isRegistered _ = _ |- _ => rewrite Hb in H
         end;
  by inversion H.

Lemma registerUser_Done env u h s s' :
  registerUser env u h s = (Done tt, s') ->
  0 < bytes_length u /\ bytes_length u <= 50 /\
  isRegistered (users_at s (msg_sender env)) = false /\
  usernameToAddress_at s u = address0 /\
  totalUsers s < MAX_UINT256 /\
  s' = mkState (owner s) (totalUsers s + 1) (totalMessages s)
         (priceFeedBTCUSD s) (priceFeedETHUSD s) (priceFeedLINKUSD s)
         (<[msg_sender env :=
              mkUserProfile u h true (block_timestamp env) 0]> (users s))
         (<[u := msg_sender env]> (usernameToAddress s))
         (userMessages s) (conversations s) (userConversations s)
         (generalChatMessages s) (registeredUsers s ++ [msg_sender env])
         (events s ++
            [UserRegistered (msg_sender env) u h (block_timestamp env)]).
Proof.
  intros H. tx_run. bool_facts. tx_close H.
Qed.

Lemma changeUsername_Done env u s s' :
  changeUsername env u s = (Done tt, s') ->
  let a := msg_sender env in
  let p := users_at s a in
  isRegistered p = true /\
  0 < bytes_length u /\ bytes_length u <= 50 /\
  usernameToAddress_at s u = address0 /\
  s' = mkState (owner s) (totalUsers s) (totalMessages s)
         (priceFeedBTCUSD s) (priceFeedETHUSD s) (priceFeedLINKUSD s)
         (<[a := mkUserProfile u (ipfsProfilePicHash p) (isRegistered p)
                   (registrationTimestamp p) (totalMessagesSent p)]> (users s))
         (<[u := a]> (delete (username p) (usernameToAddress s)))
         (userMessages s) (conversations s) (userConversations s)
         (generalChatMessages s) (registeredUsers s)
         (events s ++
            [UsernameChanged a (username p) u (block_timestamp env)]).
Proof.
  intros H. tx_run. bool_facts. tx_close H.
Qed.

Lemma updateProfilePicture_Done env h s s' :
  updateProfilePicture env h s = (Done tt, s') ->
  let a := msg_sender env in
  let p := users_at s a in
  isRegistered p = true /\
  s' = mkState (owner s) (totalUsers s) (totalMessages s)
         (priceFeedBTCUSD s) (priceFeedETHUSD s) (priceFeedLINKUSD s)
         (<[a := mkUserProfile (username p) h (isRegistered p)
                   (registrationTimestamp p) (totalMessagesSent p)]> (users s))
         (usernameToAddress s)
         (userMessages s) (conversations s) (userConversations s)
         (generalChatMessages s) (registeredUsers s) (events s).
Proof.
  intros H. tx_run. tx_close H.
Qed.

Lemma sendMessage_Done env c s s' :
  sendMessage env c s = (Done tt, s') ->
  let a := msg_sender env in
  let p := users_at s a in
  isRegistered p = true /\
  0 < bytes_length c /\ bytes_length c <= 1000 /\
  totalMessagesSent p < MAX_UINT256 /\ totalMessages s < MAX_UINT256 /\
  s' = mkState (owner s) (totalUsers s) (totalMessages s + 1)
         (priceFeedBTCUSD s) (priceFeedETHUSD s) (priceFeedLINKUSD s)
         (<[a := mkUserProfile (username p) (ipfsProfilePicHash p)
                   (isRegistered p) (registrationTimestamp p)
                   (totalMessagesSent p + 1)]> (users s))
         (usernameToAddress s)
         (userMessages s) (conversations s) (userConversations s)
         (generalChatMessages s ++
            [mkMessage a c (block_timestamp env) (totalMessages s)])
         (registeredUsers s)
         (events s ++
            [MessageSent a c (block_timestamp env) (totalMessages s + 1 - 1)]).
Proof.
  intros H. tx_run. bool_facts. tx_close H.
Qed.

Section LedgerProofs.

Context {keccak : Keccak256}.

Lemma sendDirectMessage_Done env r c s s' :
  sendDirectMessage env r c s = (Done tt, s') ->
  let a := msg_sender env in
  let h := conversationHash a r in
  isRegistered (users_at s a) = true /\
  0 < bytes_length c /\ bytes_length c <= 1000 /\
  isRegistered (users_at s r) = true /\
  s' = mkState (owner s) (totalUsers s) (totalMessages s)
         (priceFeedBTCUSD s) (priceFeedETHUSD s) (priceFeedLINKUSD s)
         (users s) (usernameToAddress s) (userMessages s)
         (<[h := conversations_at s h ++
                   [mkDirectMessage a r c (block_timestamp env) false]]>
            (conversations s))
         (if isInConversation s a r then userConversations s
          else
            let uc := <[a := userConversations_at s a ++ [r]]>
                        (userConversations s) in
            <[r := default [] (uc !! r) ++ [a]]> uc)
         (generalChatMessages s) (registeredUsers s)
         (events s ++ [DirectMessageSent a r c (block_timestamp env)]).
Proof.
  intros H. tx_run; bool_facts; tx_close H.
Qed.

Lemma emergencyStop_Done env s s' :
  emergencyStop env s = (Done tt, s') -> s' = s.
Proof. intros H. tx_run. tx_close H. Qed.

Lemma transferOwnership_Done env o s s' :
  transferOwnership env o s = (Done tt, s') -> s' = set_owner o s.
Proof. intros H. tx_run. tx_close H. Qed.

Lemma updatePriceFeeds_Done env b e l s s' :
  updatePriceFeeds env b e l s = (Done tt, s') -> s' = set_priceFeeds b e l s.
Proof. intros H. tx_run. tx_close H. Qed.

(** A transaction either leaves the ledger as it was or commits the state
    its call ended in. *)
Lemma transact_cases s env c :
  (succeeds s env c = false /\ transact s env c = s) \/
  (exists s', succeeds s env c = true /\
              dispatch env c s = (Done tt, s') /\ transact s env c = s').
Proof.
  unfold succeeds, outcome, transact.
  destruct (dispatch env c s) as [[[]|f] s']; cbn; eauto.
Qed.

(** Case analysis on a committed call: one goal per entry point, with the
    final state replaced by its explicit value. *)
Ltac invert_call Hrun :=
  lazymatch type of Hrun with
  | registerUser _ _ _ _ = _ =>
      apply registerUser_Done in Hrun as (?&?&?&?&?&?)
  | changeUsername _ _ _ = _ =>
      apply changeUsername_Done in Hrun as (?&?&?&?&?)
  | updateProfilePicture _ _ _ = _ =>
      apply updateProfilePicture_Done in Hrun as (?&?)
  | sendMessage _ _ _ = _ =>
      apply sendMessage_Done in Hrun as (?&?&?&?&?&?)
  | sendDirectMessage _ _ _ _ = _ =>
      apply sendDirectMessage_Done in Hrun as (?&?&?&?&?)
  | emergencyStop _ _ = _ => apply emergencyStop_Done in Hrun
  | transferOwnership _ _ _ = _ => apply transferOwnership_Done in Hrun
  | updatePriceFeeds _ _ _ _ _ = _ => apply updatePriceFeeds_Done in Hrun
  end;
  subst.

Ltac committed_cases c Hrun :=
  destruct c; cbn [dispatch] in Hrun; invert_call Hrun.

(** ** Reading a mapping after a write *)

Lemma default_insert {K} `{Countable K} {V} (d : V) (m : gmap K V) k k' v :
  default d (<[k := v]> m !! k')
  = if decide (k = k') then v else default d (m !! k').
Proof.
  rewrite lookup_insert. by destruct (decide (k = k')).
Qed.

Lemma default_delete {K} `{Countable K} {V} (d : V) (m : gmap K V) k k' :
  default d (delete k m !! k')
  = if decide (k = k') then d else default d (m !! k').
Proof.
  rewrite lookup_delete. by destruct (decide (k = k')).
Qed.

(** ** The partner lists *)

Lemma occurrences_app x l1 l2 :
  occurrences x (l1 ++ l2) = (occurrences x l1 + occurrences x l2)%nat.
Proof. apply count_occ_app. Qed.

Lemma occurrences_single x y :
  occurrences x [y] = if decide (y = x) then 1%nat else 0%nat.
Proof.
  unfold occurrences. cbn. destruct (N.eq_dec y x), (decide (y = x)); done.
Qed.

Lemma isInConversation_loop_false l x :
  isInConversation_loop l x = false <-> occurrences x l = 0%nat.
Proof.
  unfold occurrences. induction l as [|y l IH]; cbn; [done|].
  destruct (N.eqb_spec y x) as [->|Hne].
  - destruct (N.eq_dec x x); [split; discriminate | congruence].
  - destruct (N.eq_dec y x); [congruence | exact IH].
Qed.

Lemma isInConversation_loop_true l x :
  isInConversation_loop l x = true <-> (0 < occurrences x l)%nat.
Proof.
  destruct (isInConversation_loop l x) eqn:E.
  - split; [intros _ | done].
    destruct (occurrences x l) eqn:E'; [|lia].
    apply isInConversation_loop_false in E'. congruence.
  - apply isInConversation_loop_false in E. rewrite E. split; [done | lia].
Qed.

(** What a direct message does to the partner list of any address [x]. *)
Lemma sendDirectMessage_partners env r c s s' :
  sendDirectMessage env r c s = (Done tt, s') ->
  forall x,
    userConversations_at s' x
    = userConversations_at s x ++
      (if isInConversation s (msg_sender env) r then []
       else (if decide (x = msg_sender env) then [r] else []) ++
            (if decide (x = r) then [msg_sender env] else [])).
Proof.
  intros Hrun x. apply sendDirectMessage_Done in Hrun.
  destruct Hrun as (_ & _ & _ & _ & ->).
  unfold userConversations_at at 1. cbn [userConversations].
  destruct (isInConversation s (msg_sender env) r).
  { by rewrite app_nil_r. }
  cbv zeta. rewrite !default_insert.
  fold (userConversations_at s r) (userConversations_at s x)
       (userConversations_at s (msg_sender env)).
  repeat case_decide; subst; try done; by rewrite <- ?app_assoc, ?app_nil_r.
Qed.

(** Calls other than a direct message leave every partner list alone. *)
Lemma transact_partners_frame s env c :
  (forall r m, c <> SendDirectMessage r m) ->
  userConversations (transact s env c) = userConversations s.
Proof.
  intros Hc.
  destruct (transact_cases s env c) as [[_ ->]|(s' & _ & Hrun & ->)]; [done|].
  committed_cases c Hrun; try done.
  by destruct (Hc _receiver _content).
Qed.

Lemma transact_partners s env c x :
  userConversations_at (transact s env c) x
  = userConversations_at s x ++
    match c with
    | SendDirectMessage r _ =>
        if succeeds s env c && negb (isInConversation s (msg_sender env) r)
        then (if decide (x = msg_sender env) then [r] else []) ++
             (if decide (x = r) then [msg_sender env] else [])
        else []
    | _ => []
    end.
Proof.
  assert (Hframe : (forall r m, c <> SendDirectMessage r m) ->
            userConversations_at (transact s env c) x
            = userConversations_at s x ++ []).
  { intros Hc. unfold userConversations_at.
    by rewrite transact_partners_frame, app_nil_r. }
  destruct c; try (apply Hframe; done).
  destruct (transact_cases s env (SendDirectMessage _receiver _content))
    as [[-> ->]|(s' & -> & Hrun & ->)]; cbn [andb].
  - by rewrite app_nil_r.
  - cbn [dispatch] in Hrun.
    rewrite (sendDirectMessage_partners _ _ _ _ _ Hrun).
    by destruct (isInConversation s (msg_sender env) _receiver).
Qed.

Lemma partners_symmetric_step s env c :
  partners_symmetric s -> partners_symmetric (transact s env c).
Proof.
  intros Hsym a b. rewrite !transact_partners, !occurrences_app, (Hsym a b).
  f_equal. destruct c; try done.
  destruct (succeeds _ _ _ && negb _); [|done].
  rewrite !occurrences_app.
  repeat case_decide; subst; rewrite ?occurrences_single; cbn;
    repeat case_decide; subst; done.
Qed.

Lemma partners_distinct_once_step s env c :
  partners_symmetric s -> partners_distinct_once s ->
  partners_distinct_once (transact s env c).
Proof.
  intros Hsym Hone a b Hab. specialize (Hone a b Hab).
  rewrite transact_partners, occurrences_app.
  destruct c; cbn; try lia.
  destruct (succeeds _ _ _); cbn [andb]; [|cbn; lia].
  destruct (isInConversation s (msg_sender env) _receiver) eqn:Hin;
    cbn [negb]; [cbn; lia|].
  apply isInConversation_loop_false in Hin.
  rewrite occurrences_app.
  repeat case_decide; subst; rewrite ?occurrences_single; cbn;
    repeat case_decide; subst; try lia; try done.
  pose proof (Hsym (msg_sender env) _receiver). lia.
Qed.


(** ** Profiles and the username index *)

Ltac read_maps :=
  unfold users_at, usernameToAddress_at, isUserRegistered,
    isUsernameAvailable in *;
  cbn [users usernameToAddress set_owner set_priceFeeds] in *;
  rewrite ?default_insert, ?default_delete in *.

(** A profile, once registered, stays registered. *)
Lemma transact_registered s env c a :
  isRegistered (users_at s a) = true ->
  isRegistered (users_at (transact s env c) a) = true.
Proof.
  intros Ha.
  destruct (transact_cases s env c) as [[_ ->]|(s' & _ & Hrun & ->)]; [done|].
  committed_cases c Hrun; read_maps; try done;
    case_decide; subst; cbn; done.
Qed.

(** Only a change of username ever releases a claimed name. *)
Lemma transact_claimed s env c u :
  is_changeUsername c = false -> msg_sender env <> address0 ->
  usernameToAddress_at s u <> address0 ->
  usernameToAddress_at (transact s env c) u <> address0.
Proof.
  intros Hc Hsender Hu.
  destruct (transact_cases s env c) as [[_ ->]|(s' & _ & Hrun & ->)]; [done|].
  committed_cases c Hrun; read_maps; try done.
  case_decide; subst; done.
Qed.

Lemma index_consistent_step s env c :
  msg_sender env <> address0 ->
  index_consistent s -> index_consistent (transact s env c).
Proof.
  intros Hsender Hinv.
  destruct (transact_cases s env c) as [[_ ->]|(s' & _ & Hrun & ->)]; [done|].
  unfold index_consistent in *.
  committed_cases c Hrun; intros b Hb; read_maps; try (by apply Hinv).
  - (* registerUser *)
    destruct (decide (msg_sender env = b)) as [<-|Hne]; cbn.
    { by rewrite decide_True. }
    destruct (Hinv b Hb) as [Hb0 Hidx]. split; [done|].
    case_decide; [|done]. subst. congruence.
  - (* changeUsername *)
    destruct (decide (msg_sender env = b)) as [<-|Hne]; cbn.
    { rewrite decide_True by done. split; [|done]. by apply Hinv. }
    destruct (Hinv b Hb) as [Hb0 Hidx]. split; [done|].
    destruct (Hinv (msg_sender env)) as [_ Hown]; [done|].
    case_decide; [subst; congruence|].
    case_decide; [congruence|done].
  - (* updateProfilePicture *)
    destruct (decide (msg_sender env = b)) as [<-|Hne]; cbn in *;
      by apply Hinv.
  - (* sendMessage *)
    destruct (decide (msg_sender env = b)) as [<-|Hne]; cbn in *;
      by apply Hinv.
Qed.

Lemma index_consistent_unique s :
  index_consistent s -> usernames_unique s.
Proof.
  intros Hinv a b Ha Hb Hname.
  destruct (Hinv a Ha) as [_ <-], (Hinv b Hb) as [_ <-]. by rewrite Hname.
Qed.

(** ** Counters and message ids *)

Lemma counters_consistent_step s env c :
  counters_consistent s -> counters_consistent (transact s env c).
Proof.
  intros [Husers Hmsgs].
  destruct (transact_cases s env c) as [[_ ->]|(s' & _ & Hrun & ->)]; [done|].
  unfold counters_consistent.
  committed_cases c Hrun;
    cbn [totalUsers totalMessages registeredUsers generalChatMessages
         set_owner set_priceFeeds];
    rewrite ?length_app; cbn [length]; split; lia.
Qed.

Lemma ids_sequential_step s env c :
  counters_consistent s -> ids_sequential s ->
  ids_sequential (transact s env c).
Proof.
  intros [_ Hmsgs] Hids.
  destruct (transact_cases s env c) as [[_ ->]|(s' & _ & Hrun & ->)]; [done|].
  unfold ids_sequential in *.
  committed_cases c Hrun;
    cbn [generalChatMessages set_owner set_priceFeeds]; try done.
  intros i m Hi. apply lookup_app_Some in Hi as [Hi|[Hlen Hi]].
  { by apply Hids. }
  apply list_lookup_singleton_Some in Hi as [Hi <-]. cbn. lia.
Qed.

(** ** Reachable states *)

Lemma constructor_invariant d b e l : ledger_invariant (constructor d b e l).
Proof.
  split; try done.
  intros a b' _. unfold userConversations_at, occurrences. cbn.
  rewrite lookup_empty. cbn. lia.
Qed.

Lemma transact_invariant s env c :
  msg_sender env <> address0 ->
  ledger_invariant s -> ledger_invariant (transact s env c).
Proof.
  intros Hsender [? ? ? ? ?]. split.
  - by apply index_consistent_step.
  - by apply counters_consistent_step.
  - by apply ids_sequential_step.
  - by apply partners_symmetric_step.
  - by apply partners_distinct_once_step.
Qed.

Lemma reachable_invariant s : reachable s -> ledger_invariant s.
Proof.
  induction 1; [apply constructor_invariant | by apply transact_invariant].
Qed.


(** ** Registrations in a run *)

Lemma registrations_fresh_names txs : forall s,
  Forall signed txs ->
  Forall (fun tx => is_changeUsername (snd tx) = false) txs ->
  NoDup (map snd (registrations (successes s txs))) /\
  forall u, u ∈ map snd (registrations (successes s txs)) ->
            usernameToAddress_at s u = address0.
Proof.
  induction txs as [|[env c] txs IH]; intros s Hsigned Hkeep; cbn.
  { split; [constructor | intros u Hu; by apply elem_of_nil in Hu]. }
  apply Forall_cons in Hsigned as [Hsender Hsigned].
  apply Forall_cons in Hkeep as [Hc Hkeep]. cbn in Hsender, Hc.
  destruct (IH (transact s env c) Hsigned Hkeep) as [Hnodup Hfree].
  assert (Hback : forall u,
            usernameToAddress_at (transact s env c) u = address0 ->
            usernameToAddress_at s u = address0).
  { intros u Hu. destruct (decide (usernameToAddress_at s u = address0));
      [done|]. by destruct (transact_claimed s env c u). }
  destruct (transact_cases s env c)
    as [[-> Heq]|(s' & -> & Hrun & Heq)].
  { split; [done|]. intros u Hu. auto. }
  destruct c; cbn [registrations map snd];
    try (split; [done | intros u Hu; auto]).
  rewrite Heq in *. cbn [dispatch] in Hrun.
  apply registerUser_Done in Hrun as (_&_&_&Hfresh&_&->).
  split.
  - apply NoDup_cons. split; [|done]. intros Hin.
    specialize (Hfree _ Hin). read_maps.
    rewrite decide_True in Hfree by done. done.
  - intros u [->|Hu]%elem_of_cons; [done|]. apply Hback. auto.
Qed.

Lemma registrations_fresh_senders txs : forall s,
  NoDup (map fst (registrations (successes s txs))) /\
  forall a, a ∈ map fst (registrations (successes s txs)) ->
            isRegistered (users_at s a) = false.
Proof.
  induction txs as [|[env c] txs IH]; intros s; cbn.
  { split; [constructor | intros u Hu; by apply elem_of_nil in Hu]. }
  destruct (IH (transact s env c)) as [Hnodup Hfree].
  assert (Hback : forall a,
            isRegistered (users_at (transact s env c) a) = false ->
            isRegistered (users_at s a) = false).
  { intros a Ha. destruct (isRegistered (users_at s a)) eqn:E; [|done].
    apply (transact_registered s env c) in E. congruence. }
  destruct (transact_cases s env c)
    as [[-> Heq]|(s' & -> & Hrun & Heq)].
  { split; [done|]. intros u Hu. auto. }
  destruct c; cbn [registrations map fst];
    try (split; [done | intros u Hu; auto]).
  rewrite Heq in *. cbn [dispatch] in Hrun.
  apply registerUser_Done in Hrun as (_&_&Hnew&_&_&->).
  split.
  - apply NoDup_cons. split; [|done]. intros Hin.
    specialize (Hfree _ Hin). read_maps.
    rewrite decide_True in Hfree by done. done.
  - intros a [->|Ha]%elem_of_cons; [done|]. apply Hback. auto.
Qed.


(** A claimed name becomes available again only through a successful
    [changeUsername] of the address holding it. *)
Lemma transact_release s env c u :
  msg_sender env <> address0 ->
  usernameToAddress_at s u <> address0 ->
  usernameToAddress_at (transact s env c) u = address0 ->
  exists v, c = ChangeUsername v /\
            succeeds s env c = true /\
            username (getUserProfile s (msg_sender env)) = u.
Proof.
  intros Hsender Hu Hfree.
  destruct (transact_cases s env c) as [[_ Heq]|(s' & Hok & Hrun & Heq)];
    rewrite Heq in Hfree; [done|]. clear Heq.
  unfold getUserProfile.
  committed_cases c Hrun; read_maps; try done.
  - case_decide; subst; done.
  - exists _newUsername. split; [done|]. split; [done|].
    case_decide; [done|]. case_decide; done.
Qed.

Lemma release_in_run mid : forall s u,
  Forall signed mid ->
  usernameToAddress_at s u <> address0 ->
  usernameToAddress_at (run s mid) u = address0 ->
  exists m1 e v m2,
    mid = m1 ++ (e, ChangeUsername v) :: m2 /\
    succeeds (run s m1) e (ChangeUsername v) = true /\
    username (getUserProfile (run s m1) (msg_sender e)) = u.
Proof.
  induction mid as [|[env c] mid IH]; intros s u Hsigned Hu Hfree; cbn in *;
    [done|].
  apply Forall_cons in Hsigned as [Hsender Hsigned]. cbn in Hsender.
  destruct (decide (usernameToAddress_at (transact s env c) u = address0))
    as [Hnow|Hlater].
  - destruct (transact_release s env c u Hsender Hu Hnow)
      as (v & -> & Hok & Hname).
    by exists [], env, v, mid.
  - destruct (IH _ u Hsigned Hlater Hfree) as (m1 & e & v & m2 & -> & Hok & Hn).
    by exists ((env, c) :: m1), e, v, m2.
Qed.

Lemma registrations_fresh_among_successes txs : forall s,
  Forall signed txs ->
  Forall (fun tx => is_changeUsername (snd tx) = false) (successes s txs) ->
  NoDup (map snd (registrations (successes s txs))) /\
  forall u, u ∈ map snd (registrations (successes s txs)) ->
            usernameToAddress_at s u = address0.
Proof.
  induction txs as [|[env c] txs IH]; intros s Hsigned Hkeep; cbn in *.
  { split; [constructor | intros u Hu; by apply elem_of_nil in Hu]. }
  apply Forall_cons in Hsigned as [Hsender Hsigned]. cbn in Hsender.
  destruct (transact_cases s env c)
    as [[Hfail Heq]|(s' & Hok & Hrun & Heq)].
  { rewrite Hfail in *. rewrite Heq in *. by apply IH. }
  rewrite Hok in *. apply Forall_cons in Hkeep as [Hc Hkeep]. cbn in Hc.
  destruct (IH (transact s env c) Hsigned Hkeep) as [Hnodup Hfree].
  assert (Hback : forall u,
            usernameToAddress_at (transact s env c) u = address0 ->
            usernameToAddress_at s u = address0).
  { intros u Hu. destruct (decide (usernameToAddress_at s u = address0));
      [done|]. by destruct (transact_claimed s env c u). }
  destruct c; cbn [registrations map snd];
    try (split; [done | intros u Hu; auto]).
  rewrite Heq in *. cbn [dispatch] in Hrun.
  apply registerUser_Done in Hrun as (_&_&_&Hfresh&_&->).
  split.
  - apply NoDup_cons. split; [|done]. intros Hin.
    specialize (Hfree _ Hin). read_maps.
    rewrite decide_True in Hfree by done. done.
  - intros u [->|Hu]%elem_of_cons; [done|]. apply Hback. auto.
Qed.

(** Induction over the transactions that lead to a reachable state, with
    the invariants already established at hand. *)
Lemma reachable_induction (P : State -> Prop) :
  (forall d b e l, P (constructor d b e l)) ->
  (forall s env c,
     reachable s -> ledger_invariant s -> msg_sender env <> address0 ->
     P s -> P (transact s env c)) ->
  forall s, reachable s -> P s.
Proof.
  intros Hinit Hstep s Hs. induction Hs; [apply Hinit|].
  apply Hstep; try done. by apply reachable_invariant.
Qed.

Ltac reach_induction s :=
  let Hs := fresh "Hs" in
  intros Hs; pattern s; revert s Hs; apply reachable_induction.

Lemma usernames_within_bounds s :
  reachable s ->
  forall a, isUserRegistered s a = true ->
    0 < bytes_length (username (getUserProfile s a)) /\
    bytes_length (username (getUserProfile s a)) <= 50.
Proof.
  reach_induction s.
  { intros d b e l a. unfold isUserRegistered, users_at. cbn.
    by rewrite lookup_empty. }
  intros s env c _ _ _ IH a.
  destruct (transact_cases s env c) as [[_ ->]|(s' & _ & Hrun & ->)];
    [apply IH|].
  unfold getUserProfile, isUserRegistered in *.
  committed_cases c Hrun; read_maps; try apply IH;
    case_decide; subst; cbn; try apply IH; try done.
Qed.

(** ** The claims *)

(** C1 (as amended).  Two successful registrations claim the same username
    only if, between them, a successful [changeUsername] of the address
    holding that name released it; so in a run of signed transactions in
    which no [changeUsername] succeeds (rejected ones do not matter) no two
    successful registrations claim the same name.  In any run whatsoever no
    address registers successfully twice, and in every reachable state,
    changes of username included, no two registered profiles share a
    username. *)
Theorem registrations_unique :
  (forall s e1 u h1 mid e2 h2,
     msg_sender e1 <> address0 -> Forall signed mid ->
     succeeds s e1 (RegisterUser u h1) = true ->
     succeeds (run (transact s e1 (RegisterUser u h1)) mid) e2
              (RegisterUser u h2) = true ->
     exists m1 e v m2,
       mid = m1 ++ (e, ChangeUsername v) :: m2 /\
       succeeds (run (transact s e1 (RegisterUser u h1)) m1) e
                (ChangeUsername v) = true /\
       username (getUserProfile
                   (run (transact s e1 (RegisterUser u h1)) m1)
                   (msg_sender e)) = u) /\
  (forall s txs,
     Forall signed txs ->
     Forall (fun tx => is_changeUsername (snd tx) = false)
            (successes s txs) ->
     NoDup (map snd (registrations (successes s txs)))) /\
  (forall s txs, NoDup (map fst (registrations (successes s txs)))) /\
  (forall s, reachable s -> usernames_unique s).
Proof.
  split; [|split; [|split]].
  - intros s e1 u h1 mid e2 h2 Hsender Hsigned Hfirst Hsecond.
    apply release_in_run; [done| |].
    + destruct (transact_cases s e1 (RegisterUser u h1))
        as [[Hfail _]|(s' & _ & Hrun & ->)]; [congruence|].
      cbn [dispatch] in Hrun.
      apply registerUser_Done in Hrun as (_&_&_&_&_&->). read_maps.
      by rewrite decide_True.
    + unfold succeeds, outcome in Hsecond. cbn [dispatch] in Hsecond.
      destruct (registerUser e2 u h2 _) as [[[]|f] s2] eqn:Hrun; [|done].
      by apply registerUser_Done in Hrun as (_&_&_&Hfree&_).
  - intros s txs Hsigned Hkeep.
    by destruct (registrations_fresh_among_successes txs s Hsigned Hkeep).
  - intros s txs. by destruct (registrations_fresh_senders txs s).
  - intros s Hs. apply index_consistent_unique.
    by destruct (reachable_invariant s Hs).
Qed.

(** C2.  In a reachable state a successful [sendMessage] appends exactly one
    message to the general channel, gives it the previous length as its id,
    and raises the sender's [totalMessagesSent] by one; the ids of the
    channel are the positions 0, 1, 2, ... *)
Theorem sendMessage_appends s env c s' :
  reachable s ->
  sendMessage env c s = (Done tt, s') ->
  length (getGeneralChatMessages s')
  = S (length (getGeneralChatMessages s)) /\
  (exists m,
     getGeneralChatMessages s' = getGeneralChatMessages s ++ [m] /\
     messageId m = N.of_nat (length (getGeneralChatMessages s)) /\
     sender m = msg_sender env /\ content m = c) /\
  totalMessagesSent (getUserProfile s' (msg_sender env))
  = totalMessagesSent (getUserProfile s (msg_sender env)) + 1 /\
  ids_sequential s' /\
  transact s env (SendMessage c) = s'.
Proof.
  intros Hs Hrun.
  destruct (reachable_invariant s Hs) as [_ Hcount Hids _ _].
  assert (Hstep : transact s env (SendMessage c) = s').
  { unfold transact. cbn [dispatch]. by rewrite Hrun. }
  assert (Hids' : ids_sequential s').
  { rewrite <- Hstep. by apply ids_sequential_step. }
  destruct Hcount as [_ Hmsgs].
  apply sendMessage_Done in Hrun as (_&_&_&_&_&->).
  unfold getGeneralChatMessages, getUserProfile. read_maps.
  cbn [generalChatMessages]. rewrite decide_True by done.
  rewrite length_app. cbn [length totalMessagesSent].
  repeat split; [lia| |done|done].
  eexists. split; [done|]. cbn. by rewrite Hmsgs.
Qed.

(** C3.  [getConversation(a, b)] and [getConversation(b, a)] read the same
    bucket, whatever the state and the two addresses. *)
Theorem getConversation_symmetric s a b :
  getConversation s a b = getConversation s b a.
Proof.
  unfold getConversation, conversationHash.
  destruct (N.ltb_spec a b), (N.ltb_spec b a); try done; try lia.
  by replace b with a by lia.
Qed.

(** C4 (as amended).  [changeUsername] is rejected exactly when the caller is
    not registered, or the new name is empty or longer than 50 bytes, or the
    new name is claimed by any address, the caller's own included; so in a
    reachable state a registered user who asks for the username they already
    hold is rejected, with the message "Username is already taken". *)
Theorem changeUsername_rejects_iff s env u :
  (succeeds s env (ChangeUsername u) = false
   <-> changeUsername_rejects s (msg_sender env) u) /\
  (reachable s ->
   isUserRegistered s (msg_sender env) = true ->
   outcome s env
     (ChangeUsername (username (getUserProfile s (msg_sender env))))
   = Abort (Revert "Username is already taken") /\
   succeeds s env
     (ChangeUsername (username (getUserProfile s (msg_sender env))))
   = false).
Proof.
  assert (Hiff : forall v,
            succeeds s env (ChangeUsername v) = false
            <-> changeUsername_rejects s (msg_sender env) v).
  { intros v.
    unfold succeeds, outcome, changeUsername_rejects, isUserRegistered.
    cbn [dispatch]. tx_run; bool_facts; cbn; split; try done;
      try (intros [?|[?|[?|?]]]; congruence || lia);
      intros _;
      first [ left; congruence
            | right; left; lia
            | right; right; left; lia
            | right; right; right; congruence ]. }
  split; [apply Hiff|].
  intros Hs Hreg.
  destruct (reachable_invariant s Hs) as [Hidx _ _ _ _].
  destruct (Hidx (msg_sender env) Hreg) as [Hne Hown].
  destruct (usernames_within_bounds s Hs _ Hreg) as [Hpos Hlen].
  assert (Hwhy : outcome s env
            (ChangeUsername (username (getUserProfile s (msg_sender env))))
            = Abort (Revert "Username is already taken")).
  { unfold outcome, isUserRegistered, getUserProfile in *.
    cbn [dispatch]. tx_run; bool_facts; cbn; try done; try lia;
      congruence. }
  split; [done|]. unfold succeeds. by rewrite Hwhy.
Qed.

(** C6.  A rejected call leaves the whole ledger as it was.  The transaction
    is rolled back whatever the cause; when the cause is a failed [require],
    the storage had not even been touched when the call stopped, since every
    check of the contract precedes its first write.  In particular a
    [sendMessage] whose content is longer than 1000 bytes is rejected and
    leaves the general channel, the sender's message count and
    [totalMessages] as they were. *)
Theorem rejected_call_changes_nothing :
  (forall s env c,
     succeeds s env c = false ->
     transact s env c = s /\
     forall r, outcome s env c = Abort (Revert r) -> raw_state s env c = s) /\
  (forall s env m,
     1000 < bytes_length m ->
     succeeds s env (SendMessage m) = false /\
     getGeneralChatMessages (transact s env (SendMessage m))
     = getGeneralChatMessages s /\
     totalMessagesSent
       (getUserProfile (transact s env (SendMessage m)) (msg_sender env))
     = totalMessagesSent (getUserProfile s (msg_sender env)) /\
     totalMessages (transact s env (SendMessage m)) = totalMessages s).
Proof.
  assert (Hrollback : forall s env c,
            succeeds s env c = false -> transact s env c = s).
  { intros s env c Hfail.
    destruct (transact_cases s env c) as [[_ ->]|(s' & Hok & _)];
      [done | congruence]. }
  split.
  - intros s env c Hfail. split; [by apply Hrollback|].
    clear Hfail. unfold outcome, raw_state.
    destruct c; cbn [dispatch]; tx_run; intros r Hr; done.
  - intros s env m Hlong.
    assert (Hfail : succeeds s env (SendMessage m) = false).
    { unfold succeeds, outcome. cbn [dispatch]. tx_run; bool_facts; lia. }
    by rewrite (Hrollback _ _ _ Hfail).
Qed.

(** C7.  When [changeUsername] succeeds in a reachable state, the old name
    was claimed and the new one available before the call, and after it the
    old name is available and the new one claimed.  The two states are
    consecutive states of the ledger: the transaction commits the release and
    the claim together. *)
Theorem changeUsername_swaps_names s env u s' :
  reachable s ->
  changeUsername env u s = (Done tt, s') ->
  let old := username (getUserProfile s (msg_sender env)) in
  (isUsernameAvailable s old = false /\ isUsernameAvailable s u = true) /\
  (isUsernameAvailable s' old = true /\ isUsernameAvailable s' u = false) /\
  transact s env (ChangeUsername u) = s'.
Proof.
  intros Hs Hrun old.
  assert (Hstep : transact s env (ChangeUsername u) = s').
  { unfold transact. cbn [dispatch]. by rewrite Hrun. }
  destruct (reachable_invariant s Hs) as [Hidx _ _ _ _].
  apply changeUsername_Done in Hrun as (Hreg&_&_&Hfree&->).
  destruct (Hidx _ Hreg) as [Hne Hown].
  fold (getUserProfile s (msg_sender env)) in Hown. fold old in Hown.
  assert (Hdiff : old <> u) by (intros ->; congruence).
  unfold isUsernameAvailable, usernameToAddress_at in *.
  cbn [usernameToAddress]. rewrite !default_insert, !default_delete.
  fold (getUserProfile s (msg_sender env)). fold old.
  rewrite Hown, Hfree.
  repeat case_decide; try congruence.
  repeat split; try done; by apply N.eqb_neq.
Qed.

(** C8.  In every reachable state [totalUsers] is the length of
    [registeredUsers] and [totalMessages] the length of
    [generalChatMessages], and every transaction preserves both
    equalities. *)
Theorem counters_match_arrays :
  (forall s, reachable s -> counters_consistent s) /\
  (forall s env c,
     counters_consistent s -> counters_consistent (transact s env c)).
Proof.
  split.
  - intros s Hs. by destruct (reachable_invariant s Hs).
  - intros s env c. apply counters_consistent_step.
Qed.

(** C9.  In every reachable state the partner lists are symmetric: [b]
    occurs in the list of [a] as often as [a] occurs in the list of [b], so
    [isInConversation], which scans only its first argument's list, gives
    the same answer in both directions. *)
Theorem partner_lists_symmetric s :
  reachable s ->
  forall a b,
    occurrences b (getUserConversations s a)
    = occurrences a (getUserConversations s b) /\
    isInConversation s a b = isInConversation s b a.
Proof.
  intros Hs a b. destruct (reachable_invariant s Hs) as [_ _ _ Hsym _].
  specialize (Hsym a b). split; [done|]. unfold isInConversation.
  destruct (isInConversation_loop (userConversations_at s b) a) eqn:E.
  - apply isInConversation_loop_true in E.
    apply isInConversation_loop_true. by rewrite Hsym.
  - apply isInConversation_loop_false in E.
    apply isInConversation_loop_false. by rewrite Hsym.
Qed.

(** Once an address lists itself, no transaction changes how often. *)
Lemma self_occurrences_stable s env c a :
  isInConversation s a a = true ->
  occurrences a (userConversations_at (transact s env c) a)
  = occurrences a (userConversations_at s a).
Proof.
  intros Hin. rewrite transact_partners, occurrences_app.
  destruct c; cbn; try lia.
  destruct (succeeds _ _ _); cbn [andb]; [|cbn; lia].
  destruct (isInConversation s (msg_sender env) _receiver) eqn:Hin';
    cbn [negb]; [cbn; lia|].
  rewrite occurrences_app.
  repeat case_decide; subst; rewrite ?occurrences_single; cbn;
    repeat case_decide; subst; try lia; congruence.
Qed.

Lemma self_occurrences_run txs : forall s a,
  isInConversation s a a = true ->
  occurrences a (userConversations_at (run s txs) a)
  = occurrences a (userConversations_at s a).
Proof.
  induction txs as [|[env c] txs IH]; intros s a Hin; cbn; [done|].
  rewrite IH; [by apply self_occurrences_stable|].
  apply isInConversation_loop_true.
  rewrite self_occurrences_stable by done.
  by apply isInConversation_loop_true.
Qed.

(** C10.  A successful direct message from [a] to [a] itself, sent while
    [isInConversation(a, a)] is false, appends [a] to its own partner list
    twice, and from then on [a] occurs there exactly twice. *)
Theorem self_message_appends_twice s env c s' :
  let a := msg_sender env in
  sendDirectMessage env a c s = (Done tt, s') ->
  isInConversation s a a = false ->
  isUserRegistered s a = true /\
  getUserConversations s' a = getUserConversations s a ++ [a; a] /\
  forall txs, occurrences a (getUserConversations (run s' txs) a) = 2%nat.
Proof.
  intros a Hrun Hnot.
  assert (Hlist : userConversations_at s' a
                  = userConversations_at s a ++ [a; a]).
  { rewrite (sendDirectMessage_partners _ _ _ _ _ Hrun). fold a.
    rewrite Hnot. by rewrite !decide_True. }
  assert (Hocc : occurrences a (userConversations_at s' a) = 2%nat).
  { apply isInConversation_loop_false in Hnot.
    rewrite Hlist, occurrences_app, Hnot. unfold occurrences. cbn.
    by destruct (N.eq_dec a a). }
  apply sendDirectMessage_Done in Hrun as (Hreg&_&_&_&_).
  repeat split; [done|done|]. intros txs.
  unfold getUserConversations. rewrite self_occurrences_run; [done|].
  apply isInConversation_loop_true. rewrite Hocc. lia.
Qed.


(** ** Partner lists of two different addresses *)

Lemma partners_grow s env c x y :
  (occurrences y (userConversations_at s x)
   <= occurrences y (userConversations_at (transact s env c) x))%nat.
Proof. rewrite transact_partners, occurrences_app. lia. Qed.

Lemma partners_grow_run txs : forall s x y,
  (occurrences y (userConversations_at s x)
   <= occurrences y (userConversations_at (run s txs) x))%nat.
Proof.
  induction txs as [|[env c] txs IH]; intros s x y; cbn; [done|].
  etrans; [apply (partners_grow s env c)|apply IH].
Qed.

Lemma reachable_run txs : forall s,
  reachable s -> Forall signed txs -> reachable (run s txs).
Proof.
  induction txs as [|[env c] txs IH]; intros s Hs Hsigned; cbn; [done|].
  apply Forall_cons in Hsigned as [Hsender Hsigned].
  apply IH; [|done]. by apply reachable_transact.
Qed.

(** For two different addresses the partner index does what its comment in
    the source promises: after a successful direct message from [a] to
    [b <> a], each lists the other exactly once, and so it stays however
    many transactions follow. *)
Lemma distinct_partners_listed_once s env b c s' :
  let a := msg_sender env in
  reachable s -> a <> b ->
  sendDirectMessage env b c s = (Done tt, s') ->
  forall txs, Forall signed txs ->
    occurrences b (getUserConversations (run s' txs) a) = 1%nat /\
    occurrences a (getUserConversations (run s' txs) b) = 1%nat.
Proof.
  intros a Hs Hab Hrun txs Hsigned. unfold getUserConversations.
  assert (Hstep : transact s env (SendDirectMessage b c) = s').
  { unfold transact. cbn [dispatch]. by rewrite Hrun. }
  assert (Hlow : (1 <= occurrences b (userConversations_at s' a))%nat).
  { rewrite (sendDirectMessage_partners _ _ _ _ _ Hrun), occurrences_app.
    fold a. destruct (isInConversation s a b) eqn:Hin.
    - apply isInConversation_loop_true in Hin. lia.
    - rewrite decide_True by done. rewrite occurrences_app.
      rewrite occurrences_single, decide_True by done. lia. }
  assert (Hs' : reachable s').
  { rewrite <- Hstep. apply reachable_transact; [done|].
    apply sendDirectMessage_Done in Hrun as (Hreg&_).
    destruct (reachable_invariant s Hs) as [Hidx _ _ _ _].
    by destruct (Hidx _ Hreg). }
  destruct (reachable_invariant _ (reachable_run txs s' Hs' Hsigned))
    as [_ _ _ Hsym Hone].
  pose proof (partners_grow_run txs s' a b).
  pose proof (Hone a b Hab). pose proof (Hsym a b). lia.
Qed.

(** ** Further invariants of reachable ledgers *)

Lemma zero_profile_unless_registered s :
  reachable s ->
  forall a, isUserRegistered s a = false -> getUserProfile s a = zero_profile.
Proof.
  reach_induction s.
  { intros d b e l a _. unfold getUserProfile, users_at. cbn.
    by rewrite lookup_empty. }
  intros s env c _ _ _ IH a.
  destruct (transact_cases s env c) as [[_ ->]|(s' & _ & Hrun & ->)];
    [apply IH|].
  unfold getUserProfile, isUserRegistered in *.
  committed_cases c Hrun; read_maps; try apply IH;
    case_decide; subst; cbn; try apply IH; congruence.
Qed.

(** X1.  An address that never registered reads as the all-zero profile:
    [getUserProfile] of an unknown address is the empty record, not an
    error. *)
Theorem unregistered_profile_is_zero s :
  reachable s ->
  forall a, isUserRegistered s a = false -> getUserProfile s a = zero_profile.
Proof. apply zero_profile_unless_registered. Qed.

(** X2.  Every registered profile carries a username of 1 to 50 bytes. *)
Theorem registered_usernames_valid s :
  reachable s ->
  forall a, isUserRegistered s a = true ->
    0 < bytes_length (username (getUserProfile s a)) /\
    bytes_length (username (getUserProfile s a)) <= 50.
Proof. apply usernames_within_bounds. Qed.

(** X3.  The username index is the inverse of the profiles: a name that is
    not available is held by a registered address whose profile carries
    exactly that name. *)
Theorem claimed_name_has_owner s :
  reachable s ->
  forall u, isUsernameAvailable s u = false ->
    isUserRegistered s (usernameToAddress_at s u) = true /\
    username (getUserProfile s (usernameToAddress_at s u)) = u.
Proof.
  reach_induction s.
  { intros d b e l u. unfold isUsernameAvailable, usernameToAddress_at. cbn.
    by rewrite lookup_empty. }
  intros s env c _ [Hidx _ _ _ _] Hsender IH u.
  destruct (transact_cases s env c) as [[_ ->]|(s' & _ & Hrun & ->)];
    [apply IH|].
  unfold getUserProfile, isUserRegistered, isUsernameAvailable in *.
  committed_cases c Hrun; read_maps; try apply IH.
  - (* registerUser *)
    destruct (decide (_username = u)) as [->|Hu].
    { intros _. by rewrite decide_True. }
    intros Hu'. destruct (IH u Hu') as [Hreg Hname].
    rewrite decide_False; [done|]. intros Heq. congruence.
  - (* changeUsername *)
    destruct (decide (_newUsername = u)) as [->|Hu].
    { intros _. by rewrite decide_True. }
    case_decide as Hold; [done|].
    intros Hu'. destruct (IH u Hu') as [Hreg Hname].
    rewrite decide_False; [done|]. intros Heq.
    rewrite <- Heq in Hname. congruence.
  - (* updateProfilePicture *)
    intros Hu'. destruct (IH u Hu') as [Hreg Hname].
    case_decide as Heq; [|done]. cbn. by rewrite <- Heq in Hname.
  - (* sendMessage *)
    intros Hu'. destruct (IH u Hu') as [Hreg Hname].
    case_decide as Heq; [|done]. cbn. by rewrite <- Heq in Hname.
Qed.

(** X4.  [registeredUsers] lists every registered address exactly once and
    nothing else. *)
Theorem registeredUsers_exact s :
  reachable s ->
  NoDup (getAllRegisteredUsers s) /\
  forall a, a ∈ getAllRegisteredUsers s <-> isUserRegistered s a = true.
Proof.
  reach_induction s.
  { intros d b e l. split; [constructor|]. intros a.
    unfold isUserRegistered, users_at. cbn. rewrite lookup_empty. cbn.
    split; [by intros ?%elem_of_nil | done]. }
  intros s env c _ _ _ [IHnodup IH].
  destruct (transact_cases s env c) as [[_ ->]|(s' & _ & Hrun & ->)];
    [done|].
  unfold getAllRegisteredUsers, isUserRegistered in *.
  committed_cases c Hrun; cbn [registeredUsers set_owner set_priceFeeds];
    read_maps; try done.
  - (* registerUser *)
    split.
    + apply NoDup_app. split; [done|]. split; [|apply NoDup_singleton].
      intros a Ha ->%list_elem_of_singleton. apply IH in Ha. congruence.
    + intros a. rewrite elem_of_app, list_elem_of_singleton, IH.
      rewrite default_insert. case_decide; subst; cbn; intuition congruence.
  - split; [done|]. intros a. rewrite IH, default_insert.
    case_decide; subst; cbn; intuition congruence.
  - split; [done|]. intros a. rewrite IH, default_insert.
    case_decide; subst; cbn; intuition congruence.
  - split; [done|]. intros a. rewrite IH, default_insert.
    case_decide; subst; cbn; intuition congruence.
Qed.

(** ** The general channel *)

Lemma messages_by_app a l1 l2 :
  messages_by a (l1 ++ l2) = (messages_by a l1 + messages_by a l2)%nat.
Proof.
  induction l1 as [|m l1 IH]; cbn; [done|].
  destruct (sender m =? a); cbn; by rewrite IH.
Qed.

Lemma messages_by_le a l : (messages_by a l <= length l)%nat.
Proof.
  induction l as [|m l IH]; cbn; [done|]. destruct (sender m =? a); lia.
Qed.

Lemma sent_counter_is_count s :
  reachable s ->
  forall a,
    totalMessagesSent (getUserProfile s a)
    = N.of_nat (messages_by a (getGeneralChatMessages s)).
Proof.
  reach_induction s.
  { intros d b e l a. unfold getUserProfile, users_at. cbn.
    by rewrite lookup_empty. }
  intros s env c Hs _ _ IH a.
  destruct (transact_cases s env c) as [[_ ->]|(s' & _ & Hrun & ->)];
    [apply IH|].
  pose proof (zero_profile_unless_registered s Hs) as Hzero.
  unfold getUserProfile, getGeneralChatMessages, isUserRegistered in *.
  committed_cases c Hrun;
    cbn [generalChatMessages set_owner set_priceFeeds]; read_maps;
    try apply IH.
  - (* registerUser *)
    case_decide; subst; cbn; [|apply IH].
    rewrite <- IH, Hzero; done.
  - case_decide; subst; cbn; apply IH.
  - case_decide; subst; cbn; apply IH.
  - (* sendMessage *)
    rewrite messages_by_app. cbn.
    case_decide as Heq; subst; cbn.
    + rewrite N.eqb_refl, IH. lia.
    + destruct (N.eqb_spec (msg_sender env) a); [done|]. rewrite IH. lia.
Qed.

(** X5.  [totalMessagesSent] of every address equals the number of messages
    of the general channel whose sender it is; direct messages do not
    count. *)
Theorem messagesSent_counts_messages s :
  reachable s ->
  forall a,
    totalMessagesSent (getUserProfile s a)
    = N.of_nat (messages_by a (getGeneralChatMessages s)).
Proof. apply sent_counter_is_count. Qed.

(** X6.  Every message of the general channel was sent by a registered
    address and has a content of 1 to 1000 bytes. *)
Theorem stored_messages_wellformed s :
  reachable s ->
  forall m, m ∈ getGeneralChatMessages s ->
    isUserRegistered s (sender m) = true /\
    0 < bytes_length (content m) /\ bytes_length (content m) <= 1000.
Proof.
  reach_induction s.
  { intros d b e l m Hm. by apply elem_of_nil in Hm. }
  intros s env c _ _ _ IH m.
  assert (Hmono : forall a,
            isUserRegistered s a = true ->
            isUserRegistered (transact s env c) a = true)
    by (intros a; apply transact_registered).
  destruct (transact_cases s env c) as [[_ ->]|(s' & _ & Hrun & Heq)];
    [apply IH|].
  rewrite Heq in *. clear Heq.
  assert (Hold : m ∈ getGeneralChatMessages s ->
            isUserRegistered s' (sender m) = true /\
            0 < bytes_length (content m) /\
            bytes_length (content m) <= 1000).
  { intros Hm. destruct (IH m Hm) as (Hreg & Hlen). split; auto. }
  unfold getGeneralChatMessages in *.
  committed_cases c Hrun;
    cbn [generalChatMessages set_owner set_priceFeeds] in *; try done.
  intros [Hm|Hm%list_elem_of_singleton]%elem_of_app; [auto|]. subst m. cbn.
  split; [|done]. apply Hmono. done.
Qed.

(** X7.  In a reachable state [sendMessage] succeeds exactly when the caller
    is registered, the content has 1 to 1000 bytes and [totalMessages] is
    below its maximum: the per-user counter cannot be the one that
    overflows. *)
Theorem sendMessage_succeeds_iff s env m :
  reachable s ->
  succeeds s env (SendMessage m) = true <->
  isUserRegistered s (msg_sender env) = true /\
  0 < bytes_length m /\ bytes_length m <= 1000 /\
  totalMessages s < MAX_UINT256.
Proof.
  intros Hs.
  pose proof (sent_counter_is_count s Hs (msg_sender env)) as Hsent.
  pose proof (messages_by_le (msg_sender env) (getGeneralChatMessages s)).
  destruct (reachable_invariant s Hs) as [_ [_ Htotal] _ _ _].
  unfold succeeds, outcome, isUserRegistered, getUserProfile,
    getGeneralChatMessages in *.
  cbn [dispatch]. tx_run; bool_facts; cbn; split; try done;
    try (intros (?&?&?&?); congruence || lia).
  all: intros _; repeat split; try done; lia.
Qed.

(** ** Direct messages *)

Lemma conversationHash_sym a b : conversationHash a b = conversationHash b a.
Proof.
  unfold conversationHash.
  destruct (N.ltb_spec a b), (N.ltb_spec b a); try done; try lia.
  by replace b with a by lia.
Qed.

Lemma direct_message_pushed s env r c s' :
  sendDirectMessage env r c s = (Done tt, s') ->
  let a := msg_sender env in
  let dm := mkDirectMessage a r c (block_timestamp env) false in
  getConversation s' a r = getConversation s a r ++ [dm] /\
  getConversation s' r a = getConversation s r a ++ [dm] /\
  getGeneralChatMessages s' = getGeneralChatMessages s /\
  totalMessages s' = totalMessages s /\
  users s' = users s.
Proof.
  intros Hrun a dm.
  apply sendDirectMessage_Done in Hrun as (_&_&_&_&->).
  unfold getConversation. rewrite (conversationHash_sym r a).
  unfold conversations_at. cbn [conversations].
  by rewrite default_insert, decide_True.
Qed.

(** X8.  A successful [sendDirectMessage] appends exactly one unread message
    to the conversation of the pair, seen from either side, and touches
    neither the general channel, nor the counters, nor any profile. *)
Theorem sendDirectMessage_appends s env r c s' :
  sendDirectMessage env r c s = (Done tt, s') ->
  let a := msg_sender env in
  let dm := mkDirectMessage a r c (block_timestamp env) false in
  getConversation s' a r = getConversation s a r ++ [dm] /\
  getConversation s' r a = getConversation s r a ++ [dm] /\
  getGeneralChatMessages s' = getGeneralChatMessages s /\
  totalMessages s' = totalMessages s /\
  users s' = users s.
Proof. apply direct_message_pushed. Qed.

(** X9.  [sendDirectMessage] never panics: it ends normally or at one of
    four [require]s, tested in this order: the caller's registration, the
    empty content, the length of the content, the receiver's
    registration. *)
Theorem sendDirectMessage_outcome s env r c :
  outcome s env (SendDirectMessage r c)
  = if negb (isUserRegistered s (msg_sender env))
    then Abort (Revert "User must be registered to perform this action")
    else if bytes_length c =? 0
    then Abort (Revert "Message cannot be empty")
    else if 1000 <? bytes_length c
    then Abort (Revert "Message too long (max 1000 characters)")
    else if negb (isUserRegistered s r)
    then Abort (Revert "Receiver must be registered")
    else Done tt.
Proof.
  unfold outcome, isUserRegistered. cbn [dispatch].
  tx_run; bool_facts; cbn; try done; try lia.
Qed.

Lemma isInConversation_elem_of s a b :
  isInConversation s a b = true <-> b ∈ getUserConversations s a.
Proof.
  unfold isInConversation, getUserConversations.
  induction (userConversations_at s a) as [|x l IH]; cbn.
  { split; [done | by intros ?%elem_of_nil]. }
  rewrite elem_of_cons. destruct (N.eqb_spec x b) as [->|Hne].
  - split; auto.
  - rewrite IH. split; [auto | intros [?|?]; congruence || done].
Qed.

(** X10.  The loop of [isInConversation] is a membership test on the first
    user's partner list. *)
Theorem isInConversation_spec s a b :
  isInConversation s a b = true <-> b ∈ getUserConversations s a.
Proof. apply isInConversation_elem_of. Qed.

(** X11.  Every stored direct message is unread, was exchanged between two
    registered addresses, has a content of 1 to 1000 bytes and lies in the
    bucket of its own sender and receiver.  No entry point marks a message
    as read. *)
Theorem direct_messages_wellformed s :
  reachable s ->
  forall h dm, dm ∈ conversations_at s h ->
    isRead dm = false /\
    isUserRegistered s (dm_sender dm) = true /\
    isUserRegistered s (dm_receiver dm) = true /\
    0 < bytes_length (dm_content dm) /\
    bytes_length (dm_content dm) <= 1000 /\
    h = conversationHash (dm_sender dm) (dm_receiver dm).
Proof.
  reach_induction s.
  { intros d b e l h dm. unfold conversations_at. cbn.
    rewrite lookup_empty. cbn. by intros ?%elem_of_nil. }
  intros s env c _ _ _ IH h dm.
  assert (Hmono : forall a,
            isUserRegistered s a = true ->
            isUserRegistered (transact s env c) a = true)
    by (intros a; apply transact_registered).
  destruct (transact_cases s env c) as [[_ ->]|(s' & _ & Hrun & Heq)];
    [apply IH|].
  rewrite Heq in *. clear Heq.
  assert (Hold : dm ∈ conversations_at s h ->
            isRead dm = false /\
            isUserRegistered s' (dm_sender dm) = true /\
            isUserRegistered s' (dm_receiver dm) = true /\
            0 < bytes_length (dm_content dm) /\
            bytes_length (dm_content dm) <= 1000 /\
            h = conversationHash (dm_sender dm) (dm_receiver dm)).
  { intros Hdm. destruct (IH h dm Hdm) as (?&?&?&?&?&?).
    repeat split; auto. }
  unfold conversations_at in *.
  committed_cases c Hrun;
    cbn [conversations set_owner set_priceFeeds] in *; try done.
  rewrite default_insert. case_decide as Hh; [|done]. subst h.
  intros [Hdm|Hdm%list_elem_of_singleton]%elem_of_app; [auto|].
  subst dm. cbn. repeat split; try done; by apply Hmono.
Qed.

(** X12.  Two addresses that list each other as partners have at least one
    message in their conversation. *)
Theorem partners_have_messages s :
  reachable s ->
  forall a b, isInConversation s a b = true -> getConversation s a b <> [].
Proof.
  intros Hs a b. rewrite isInConversation_elem_of. revert a b.
  pattern s. revert s Hs. apply reachable_induction.
  { intros d f e l a b. unfold getUserConversations, userConversations_at.
    cbn. rewrite lookup_empty. cbn. by intros ?%elem_of_nil. }
  intros s env c _ _ _ IH a b.
  unfold getUserConversations. rewrite transact_partners.
  assert (Hgrow : forall h,
            conversations_at s h <> [] ->
            conversations_at (transact s env c) h <> []).
  { intros h Hne.
    destruct (transact_cases s env c) as [[_ ->]|(s' & _ & Hrun & ->)];
      [done|].
    unfold conversations_at in *.
    committed_cases c Hrun;
      cbn [conversations set_owner set_priceFeeds]; try done.
    rewrite default_insert. case_decide; [|done]. subst.
    by intros [_ ?]%app_eq_nil. }
  intros [Hold|Hnew]%elem_of_app.
  { apply Hgrow, IH. done. }
  destruct c; try (by apply elem_of_nil in Hnew).
  destruct (transact_cases s env (SendDirectMessage _receiver _content))
    as [[Hf _]|(s' & Hok & Hrun & ->)].
  { rewrite Hf in Hnew. by apply elem_of_nil in Hnew. }
  cbn [dispatch] in Hrun.
  destruct (direct_message_pushed _ _ _ _ _ Hrun) as (Hab & Hba & _).
  rewrite Hok in Hnew. cbn [andb] in Hnew.
  destruct (negb _); [|by apply elem_of_nil in Hnew].
  apply elem_of_app in Hnew as [Hnew|Hnew]; case_decide;
    try (by apply elem_of_nil in Hnew);
    apply list_elem_of_singleton in Hnew; subst.
  - rewrite Hab. by intros [_ ?]%app_eq_nil.
  - rewrite Hba. by intros [_ ?]%app_eq_nil.
Qed.

(** ** Profiles *)

Lemma registerUser_decides s env u h :
  outcome s env (RegisterUser u h)
  = if bytes_length u =? 0
    then Abort (Revert "Username cannot be empty")
    else if 50 <? bytes_length u
    then Abort (Revert "Username too long (max 50 characters)")
    else if isUserRegistered s (msg_sender env)
    then Abort (Revert "User is already registered")
    else if negb (isUsernameAvailable s u)
    then Abort (Revert "Username is already taken")
    else if MAX_UINT256 <=? totalUsers s
    then Abort (Panic 17)
    else Done tt.
Proof.
  unfold outcome, isUserRegistered, isUsernameAvailable. cbn [dispatch].
  tx_run; bool_facts; cbn; try done; try lia; congruence.
Qed.

(** X13.  [registerUser] ends normally, at one of four [require]s, or at the
    overflow of [totalUsers], tested in this order: the empty name, the
    length of the name, the caller's registration, the availability of the
    name, the counter.  An already registered caller with an invalid name is
    told about the name. *)
Theorem registerUser_outcome s env u h :
  outcome s env (RegisterUser u h)
  = if bytes_length u =? 0
    then Abort (Revert "Username cannot be empty")
    else if 50 <? bytes_length u
    then Abort (Revert "Username too long (max 50 characters)")
    else if isUserRegistered s (msg_sender env)
    then Abort (Revert "User is already registered")
    else if negb (isUsernameAvailable s u)
    then Abort (Revert "Username is already taken")
    else if MAX_UINT256 <=? totalUsers s
    then Abort (Panic 17)
    else Done tt.
Proof. apply registerUser_decides. Qed.

(** X14.  [updateProfilePicture] asks for nothing but a registered caller:
    any string is accepted, the empty one included.  It replaces the
    caller's picture reference and changes nothing else, and it emits no
    event. *)
Theorem updateProfilePicture_effect s env h :
  let a := msg_sender env in
  let s' := transact s env (UpdateProfilePicture h) in
  succeeds s env (UpdateProfilePicture h) = isUserRegistered s a /\
  (isUserRegistered s a = true ->
   ipfsProfilePicHash (getUserProfile s' a) = h /\
   username (getUserProfile s' a) = username (getUserProfile s a) /\
   isUserRegistered s' a = true /\
   registrationTimestamp (getUserProfile s' a)
   = registrationTimestamp (getUserProfile s a) /\
   totalMessagesSent (getUserProfile s' a)
   = totalMessagesSent (getUserProfile s a) /\
   (forall b, b <> a -> getUserProfile s' b = getUserProfile s b) /\
   s' = set_users (users s') s).
Proof.
  intros a s'. subst s'.
  unfold succeeds, outcome, transact, isUserRegistered, getUserProfile.
  cbn [dispatch]. subst a. tx_run; cbn.
  split; [done|]. intros _. rewrite !default_insert.
  rewrite decide_True by done. cbn. repeat split; try done.
  intros b Hb. rewrite default_insert. by rewrite decide_False.
Qed.

(** X15.  The last picture written wins: two updates by the same caller,
    in whatever blocks, leave the ledger where the second one alone would. *)
Theorem updateProfilePicture_overwrites s env1 env2 h1 h2 :
  msg_sender env1 = msg_sender env2 ->
  transact (transact s env1 (UpdateProfilePicture h1)) env2
           (UpdateProfilePicture h2)
  = transact s env2 (UpdateProfilePicture h2).
Proof.
  intros Hsame. unfold transact. cbn [dispatch]. tx_unfold. st_simpl.
  rewrite Hsame. tx_cases; st_simpl; cbn in *;
    rewrite ?default_insert, ?decide_True in * by done; cbn in *;
    try congruence.
  by rewrite insert_insert_eq.
Qed.

(** ** Administration *)

(** X16.  [emergencyStop] stops nothing: the owner's call succeeds without
    any effect, anybody else's call is rejected, and either way the ledger
    is what it was. *)
Theorem emergencyStop_changes_nothing s env :
  succeeds s env EmergencyStop = (msg_sender env =? owner s) /\
  transact s env EmergencyStop = s.
Proof.
  unfold succeeds, outcome, transact. cbn [dispatch]. by tx_run.
Qed.

(** X17.  A transaction whose sender is not the owner changes neither the
    owner nor a price feed address, so the prices read through the ledger
    stay the same; if it calls an owner-only function it is rejected. *)
Theorem only_owner_administers `{oracle : Aggregators} s env c :
  msg_sender env <> owner s ->
  let s' := transact s env c in
  owner s' = owner s /\
  priceFeedBTCUSD s' = priceFeedBTCUSD s /\
  priceFeedETHUSD s' = priceFeedETHUSD s /\
  priceFeedLINKUSD s' = priceFeedLINKUSD s /\
  getAllPrices s' = getAllPrices s /\
  (owner_only c = true ->
   outcome s env c
   = Abort (Revert "Only contract owner can call this function")).
Proof.
  intros Hother s'.
  assert (Hadmin : owner_only c = true ->
            outcome s env c
            = Abort (Revert "Only contract owner can call this function")).
  { unfold outcome. destruct c; try done; intros _; cbn [dispatch];
      tx_run; bool_facts; congruence. }
  assert (Hsame : owner s' = owner s /\
            priceFeedBTCUSD s' = priceFeedBTCUSD s /\
            priceFeedETHUSD s' = priceFeedETHUSD s /\
            priceFeedLINKUSD s' = priceFeedLINKUSD s).
  { subst s'.
    destruct (transact_cases s env c) as [[_ ->]|(s1 & Hok & Hrun & ->)];
      [done|].
    destruct (owner_only c) eqn:Hc.
    { unfold succeeds in Hok. by rewrite Hadmin in Hok. }
    committed_cases c Hrun; done. }
  destruct Hsame as (Ho & Hb & He & Hl). repeat split; try done.
  unfold getAllPrices, getLatestPriceBTCUSD, getLatestPriceETHUSD,
    getLatestPriceLINKUSD. by rewrite Hb, He, Hl.
Qed.

Lemma owner_nonzero_step s env c :
  owner s <> address0 -> owner (transact s env c) <> address0.
Proof.
  intros Ho.
  destruct (transact_cases s env c) as [[_ ->]|(s' & _ & Hrun & ->)];
    [done|].
  destruct c; cbn [dispatch] in Hrun;
    try (invert_call Hrun; done).
  tx_run; bool_facts. inversion Hrun. subst. done.
Qed.

(** X18.  The ledger always has an owner: deployed from a non-zero address,
    its [owner] is never [address(0)], whatever transactions follow. *)
Theorem owner_never_zero d b e l txs :
  d <> address0 -> owner (run (constructor d b e l) txs) <> address0.
Proof.
  intros Hd.
  assert (Hrun : forall s, owner s <> address0 ->
            owner (run s txs) <> address0).
  { induction txs as [|[env c] txs IH]; intros s Hs; cbn; [done|].
    by apply IH, owner_nonzero_step. }
  by apply Hrun.
Qed.

(** X19.  A successful [transferOwnership] hands the contract over: the new
    owner can administer it, and every other address, the previous owner
    included, is rejected by the owner-only functions from then on. *)
Theorem transferOwnership_hands_over s env o :
  msg_sender env = owner s -> o <> address0 ->
  let s' := transact s env (TransferOwnership o) in
  succeeds s env (TransferOwnership o) = true /\
  owner s' = o /\
  (forall env' b e l,
     msg_sender env' = o -> succeeds s' env' (UpdatePriceFeeds b e l) = true) /\
  (forall env' c,
     msg_sender env' <> o -> owner_only c = true ->
     succeeds s' env' c = false).
Proof.
  intros Hme Ho s'.
  assert (Hs' : s' = set_owner o s).
  { subst s'. unfold transact. cbn [dispatch]. tx_run; bool_facts; done. }
  rewrite Hs'. repeat split.
  - unfold succeeds, outcome. cbn [dispatch]. tx_run; bool_facts; done.
  - intros env' b e l Hnew. unfold succeeds, outcome. cbn [dispatch].
    tx_run; bool_facts; done.
  - intros env' c Hother Hc. unfold succeeds, outcome.
    destruct c; try done; cbn [dispatch]; tx_run; bool_facts; done.
Qed.

(** ** What the ledger keeps *)

Lemma extends_refl s : extends s s.
Proof. by repeat split. Qed.

Lemma extends_trans s1 s2 s3 : extends s1 s2 -> extends s2 s3 -> extends s1 s3.
Proof.
  intros (?&?&?&Hc&Hp) (?&?&?&Hc'&Hp').
  repeat split; try (by etrans); intros x.
  - by trans (conversations_at s2 x).
  - by trans (userConversations_at s2 x).
Qed.

Lemma transact_extends s env c : extends s (transact s env c).
Proof.
  destruct (transact_cases s env c) as [[_ ->]|(s' & _ & Hrun & ->)];
    [apply extends_refl|].
  unfold extends, conversations_at, userConversations_at.
  committed_cases c Hrun;
    cbn [generalChatMessages registeredUsers events conversations
         userConversations set_owner set_priceFeeds];
    repeat split; try done; try (by apply prefix_app_r); intros x.
  - rewrite default_insert. case_decide; subst; [|done].
    by apply prefix_app_r.
  - destruct (isInConversation s (msg_sender env) _receiver); [done|].
    cbv zeta. rewrite !default_insert.
    repeat case_decide; subst; try done;
      rewrite <- ?app_assoc; by apply prefix_app_r.
Qed.

(** X20.  The ledger is append-only: whatever transactions run, the general
    channel, the list of registered users, the event log, every
    conversation and every partner list keep all their entries, in place. *)
Theorem history_is_append_only txs : forall s, extends s (run s txs).
Proof.
  induction txs as [|[env c] txs IH]; intros s; cbn;
    [apply extends_refl|].
  eapply extends_trans; [apply transact_extends | apply IH].
Qed.

Lemma profile_kept_step s env c a :
  isUserRegistered s a = true ->
  isUserRegistered (transact s env c) a = true /\
  registrationTimestamp (getUserProfile (transact s env c) a)
  = registrationTimestamp (getUserProfile s a) /\
  totalMessagesSent (getUserProfile s a)
  <= totalMessagesSent (getUserProfile (transact s env c) a).
Proof.
  intros Ha.
  destruct (transact_cases s env c) as [[_ ->]|(s' & _ & Hrun & ->)];
    [done|].
  unfold isUserRegistered, getUserProfile in *.
  committed_cases c Hrun; read_maps; try done;
    case_decide; subst; cbn; repeat split; try done; try congruence; lia.
Qed.

(** X21.  A profile is for good: once an address is registered it stays
    registered, its registration timestamp never changes and its message
    count never decreases, whatever transactions follow. *)
Theorem registration_is_permanent txs : forall s a,
  isUserRegistered s a = true ->
  isUserRegistered (run s txs) a = true /\
  registrationTimestamp (getUserProfile (run s txs) a)
  = registrationTimestamp (getUserProfile s a) /\
  totalMessagesSent (getUserProfile s a)
  <= totalMessagesSent (getUserProfile (run s txs) a).
Proof.
  induction txs as [|[env c] txs IH]; intros s a Ha; cbn; [done|].
  destruct (profile_kept_step s env c a Ha) as (Hreg & Htime & Hsent).
  destruct (IH _ a Hreg) as (Hreg' & Htime' & Hsent').
  repeat split; [done | congruence | lia].
Qed.

(** ** Events *)

Lemma registered_from_events_app l1 l2 :
  registered_from_events (l1 ++ l2)
  = registered_from_events l1 ++ registered_from_events l2.
Proof.
  induction l1 as [|[] l1 IH]; cbn; by rewrite ?IH.
Qed.

Lemma messages_from_events_app l1 l2 :
  messages_from_events (l1 ++ l2)
  = messages_from_events l1 ++ messages_from_events l2.
Proof.
  induction l1 as [|[] l1 IH]; cbn; by rewrite ?IH.
Qed.

(** X22.  The event log tells the whole story of the two public arrays: the
    addresses of its [UserRegistered] events are [registeredUsers], and its
    [MessageSent] events are the messages of the general channel, with the
    same sender, content, timestamp and id. *)
Theorem events_mirror_arrays s :
  reachable s ->
  registered_from_events (events s) = getAllRegisteredUsers s /\
  messages_from_events (events s) = getGeneralChatMessages s.
Proof.
  reach_induction s; [done|].
  intros s env c _ _ _ [IHusers IHmsgs].
  destruct (transact_cases s env c) as [[_ ->]|(s' & _ & Hrun & ->)];
    [done|].
  unfold getAllRegisteredUsers, getGeneralChatMessages in *.
  committed_cases c Hrun;
    cbn [events registeredUsers generalChatMessages set_owner
         set_priceFeeds];
    rewrite ?registered_from_events_app, ?messages_from_events_app;
    cbn; rewrite ?app_nil_r, ?IHusers, ?IHmsgs; try done.
  by rewrite N.add_sub.
Qed.

(** X23.  A transaction adds exactly one event when it succeeds in
    registering, renaming or sending a message, and none otherwise: failed
    calls, picture updates and the owner's calls leave no trace in the
    log. *)
Theorem events_grow_by_one s env c :
  length (events (transact s env c))
  = (length (events s)
     + if succeeds s env c && emits c then 1 else 0)%nat.
Proof.
  destruct (transact_cases s env c) as [[-> ->]|(s' & -> & Hrun & ->)];
    cbn [andb]; [lia|].
  committed_cases c Hrun; cbn [events emits set_owner set_priceFeeds];
    rewrite ?length_app; cbn [length]; lia.
Qed.

(** X24.  The mapping [userMessages] is declared but never written: it is
    empty in every reachable state. *)
Theorem userMessages_never_written s :
  reachable s -> userMessages s = ∅.
Proof.
  reach_induction s; [done|].
  intros s env c _ _ _ IH.
  destruct (transact_cases s env c) as [[_ ->]|(s' & _ & Hrun & ->)];
    [done|].
  committed_cases c Hrun; done.
Qed.

(** ** Changing a username and back *)

Lemma changeUsername_run env u s :
  isUserRegistered s (msg_sender env) = true ->
  0 < bytes_length u -> bytes_length u <= 50 ->
  isUsernameAvailable s u = true ->
  exists s', changeUsername env u s = (Done tt, s').
Proof.
  unfold isUserRegistered, isUsernameAvailable. intros Hreg Hpos Hlen Hfree.
  tx_run; bool_facts; eauto; congruence || lia.
Qed.

(** X25.  After a successful [changeUsername] in a reachable state the
    caller can always change back: the second call succeeds, and it
    restores the username index and every profile to what they were before
    the first. *)
Theorem changeUsername_round_trip s env u s1 t :
  reachable s ->
  changeUsername env u s = (Done tt, s1) ->
  let a := msg_sender env in
  let old := username (getUserProfile s a) in
  exists s2,
    changeUsername (mkEnv a t) old s1 = (Done tt, s2) /\
    (forall v, usernameToAddress_at s2 v = usernameToAddress_at s v) /\
    (forall b, getUserProfile s2 b = getUserProfile s b).
Proof.
  intros Hs Hrun a old.
  apply changeUsername_Done in Hrun as (Hreg&_&_&Hfree&->). fold a in Hreg.
  destruct (usernames_within_bounds s Hs a Hreg) as [Hpos Hlen].
  destruct (reachable_invariant s Hs) as [Hidx _ _ _ _].
  destruct (Hidx a Hreg) as [Ha Hown]. clear Hidx Hs.
  fold (getUserProfile s a) in Hown. fold old in Hown, Hpos, Hlen.
  assert (Hdiff : old <> u) by (intros ->; congruence).
  unfold getUserProfile in *. fold a. fold old.
  set (s1 := mkState _ _ _ _ _ _ _ _ _ _ _ _ _ _).
  assert (Hprofile : users_at s1 a
            = mkUserProfile u (ipfsProfilePicHash (users_at s a))
                (isRegistered (users_at s a))
                (registrationTimestamp (users_at s a))
                (totalMessagesSent (users_at s a))).
  { unfold users_at, s1. cbn [users].
    by rewrite default_insert, decide_True. }
  destruct (changeUsername_run (mkEnv a t) old s1) as [s2 Hback];
    try done.
  { unfold isUserRegistered. cbn [msg_sender]. by rewrite Hprofile. }
  { unfold isUsernameAvailable, usernameToAddress_at, s1.
    cbn [usernameToAddress].
    rewrite default_insert, decide_False, default_delete, decide_True;
      done. }
  exists s2. split; [done|].
  apply changeUsername_Done in Hback as (_&_&_&_&->).
  cbn [msg_sender]. rewrite Hprofile. cbn [username ipfsProfilePicHash
    isRegistered registrationTimestamp totalMessagesSent].
  unfold usernameToAddress_at, users_at in *. subst s1.
  cbn [users usernameToAddress]. split.
  - intros v. repeat (rewrite default_insert || rewrite default_delete).
    repeat case_decide; subst; congruence.
  - intros b. rewrite !default_insert.
    case_decide; [|done]. subst b. unfold old.
    by destruct (default zero_profile (users s !! a)).
Qed.

(** X26.  A name given up by [changeUsername] is free for anybody: right
    after the change, any address that is not yet registered can register
    under the old name (unless the user counter is full). *)
Theorem released_name_can_be_registered s env u s1 env' h :
  reachable s ->
  changeUsername env u s = (Done tt, s1) ->
  isUserRegistered s1 (msg_sender env') = false ->
  totalUsers s1 < MAX_UINT256 ->
  succeeds s1 env'
    (RegisterUser (username (getUserProfile s (msg_sender env))) h) = true.
Proof.
  intros Hs Hrun Hnew Hroom.
  apply changeUsername_Done in Hrun as (Hreg&_&_&Hfree&->).
  destruct (usernames_within_bounds s Hs _ Hreg) as [Hpos Hlen].
  destruct (reachable_invariant s Hs) as [Hidx _ _ _ _].
  destruct (Hidx _ Hreg) as [Ha Hown].
  unfold succeeds. rewrite registerUser_decides.
  unfold getUserProfile in *.
  set (old := username (users_at s (msg_sender env))) in *.
  assert (Hdiff : old <> u) by (intros ->; congruence).
  rewrite Hnew. unfold isUsernameAvailable, usernameToAddress_at.
  cbn [usernameToAddress totalUsers] in *.
  rewrite default_insert, decide_False, default_delete, decide_True by done.
  destruct (N.eqb_spec (bytes_length old) 0); [lia|].
  destruct (N.ltb_spec 50 (bytes_length old)); [lia|].
  cbn. destruct (N.leb_spec MAX_UINT256 (totalUsers s)); [lia|done].
Qed.

(** X30.  For two different addresses the partner index holds each
    counterpart once: after a successful direct message from [a] to
    [b <> a] in a reachable state, [b] occurs exactly once in the list of
    [a] and [a] exactly once in the list of [b], and this stays so through
    every later run of signed transactions. *)
Theorem different_partners_listed_once s env b c s' :
  let a := msg_sender env in
  reachable s -> a <> b ->
  sendDirectMessage env b c s = (Done tt, s') ->
  forall txs, Forall signed txs ->
    occurrences b (getUserConversations (run s' txs) a) = 1%nat /\
    occurrences a (getUserConversations (run s' txs) b) = 1%nat.
Proof. apply distinct_partners_listed_once. Qed.

End LedgerProofs.

(** ** Concrete runs *)

(** Why transactions are taken to be [signed]: a registration sent from
    [address(0)] would store the zero address in the username index, which
    reads as "unclaimed". *)
Remark unsigned_registration_leaves_name_free :
  let s := transact (keccak := packed_pair) fresh (mkEnv address0 1700000000)
                    (RegisterUser "ghost" EmptyString) in
  isUserRegistered s address0 = true /\ isUsernameAvailable s "ghost" = true.
Proof. by vm_compute. Qed.

Ltac reach :=
  repeat first
    [ apply reachable_deploy
    | apply reachable_transact; [|by vm_compute] ].

(** C1, the counterexample to the claim as stated: with a change of username
    in between, two successful registrations claim the same name. *)
Lemma released_name_registered_again :
  Forall signed reclaim_run /\
  registrations (successes (keccak := packed_pair) fresh reclaim_run)
  = [(1, "alice"); (3, "alice")] /\
  ~ NoDup (map snd (registrations
                      (successes (keccak := packed_pair) fresh reclaim_run))).
Proof.
  split; [repeat constructor; by vm_compute|].
  assert (Hruns : registrations
                    (successes (keccak := packed_pair) fresh reclaim_run)
                  = [(1, "alice"); (3, "alice")]) by (by vm_compute).
  split; [done|]. rewrite Hruns. cbn.
  intros [Hnot _]%NoDup_cons. apply Hnot. by left.
Qed.

Lemma registrations_unique_witness :
  (exists m1 e v m2,
     [(at_time 1, ChangeUsername "al")] = m1 ++ (e, ChangeUsername v) :: m2 /\
     succeeds (keccak := packed_pair)
       (run (keccak := packed_pair)
          (transact (keccak := packed_pair) fresh (at_time 1)
             (RegisterUser "alice" "ref1")) m1)
       e (ChangeUsername v) = true /\
     username
       (getUserProfile
          (run (keccak := packed_pair)
             (transact (keccak := packed_pair) fresh (at_time 1)
                (RegisterUser "alice" "ref1")) m1)
          (msg_sender e)) = "alice") /\
  NoDup (map snd (registrations
                    (successes (keccak := packed_pair) fresh scenario_run))) /\
  usernames_unique two_users.
Proof.
  split; [|split].
  - apply (proj1 (@registrations_unique packed_pair) fresh (at_time 1)
             "alice" "ref1" [(at_time 1, ChangeUsername "al")] (at_time 3)
             "ref3");
      [by vm_compute | repeat constructor; by vm_compute
      | by vm_compute | by vm_compute].
  - apply (proj1 (proj2 (@registrations_unique packed_pair)));
      [repeat constructor; by vm_compute | vm_compute; repeat constructor].
  - apply (proj2 (proj2 (proj2 (@registrations_unique packed_pair)))).
    unfold two_users, fresh. cbn [run]. reach.
Defined.

Lemma sendMessage_appends_witness :
  ids_sequential
    (transact (keccak := packed_pair) two_users (at_time 1) (SendMessage "hi")).
Proof.
  assert (Hs : reachable (keccak := packed_pair) two_users)
    by (unfold two_users, fresh; cbn [run]; reach).
  assert (Hrun : sendMessage (at_time 1) "hi" two_users
                 = (Done tt, snd (sendMessage (at_time 1) "hi" two_users)))
    by (by vm_compute).
  destruct (@sendMessage_appends packed_pair _ _ _ _ Hs Hrun)
    as (_ & _ & _ & Hids & Hstep).
  by rewrite Hstep.
Defined.

(** C4, the counterexample to the claim as stated: [alice] is registered,
    her new name is valid and is claimed by no other address, and yet the
    call is rejected. *)
Lemma own_username_rejected :
  username (getUserProfile two_users 1) = "alice" /\
  succeeds (keccak := packed_pair) two_users (at_time 1)
           (ChangeUsername "alice") = false /\
  ~ changeUsername_rejects_as_specified two_users 1 "alice".
Proof.
  split; [by vm_compute|]. split; [by vm_compute|].
  intros [H|[H|[H|[_ H]]]]; vm_compute in H; done.
Qed.

Lemma changeUsername_rejects_iff_witness :
  outcome (keccak := packed_pair) two_users (at_time 1)
    (ChangeUsername (username (getUserProfile two_users
                                 (msg_sender (at_time 1)))))
  = Abort (Revert "Username is already taken").
Proof.
  destruct (proj2 (@changeUsername_rejects_iff packed_pair two_users
                     (at_time 1) "alice")) as [Hwhy _];
    [unfold two_users, fresh; cbn [run]; reach | by vm_compute | exact Hwhy].
Defined.

(** C5, the failing input: one direct message of [alice] to herself lists
    her twice in her own partner index. *)
Theorem self_message_listed_twice :
  succeeds (keccak := packed_pair) two_users (at_time 1)
           (SendDirectMessage 1 "note") = true /\
  getUserConversations two_users 1 = [] /\
  getUserConversations note_to_self 1 = [1; 1] /\
  occurrences 1 (getUserConversations note_to_self 1) = 2%nat.
Proof. by vm_compute. Qed.

Lemma rejected_call_changes_nothing_witness :
  transact (keccak := packed_pair) two_users (at_time 1)
           (SendMessage (letters 1001)) = two_users /\
  getGeneralChatMessages
    (transact (keccak := packed_pair) two_users (at_time 1)
              (SendMessage (letters 1001)))
  = getGeneralChatMessages two_users.
Proof.
  split.
  - apply (proj1 (@rejected_call_changes_nothing packed_pair)).
    by vm_compute.
  - apply (proj2 (@rejected_call_changes_nothing packed_pair)).
    by vm_compute.
Defined.

Lemma changeUsername_swaps_names_witness :
  isUsernameAvailable
    (snd (changeUsername (at_time 1) "al" two_users)) "alice" = true /\
  isUsernameAvailable
    (snd (changeUsername (at_time 1) "al" two_users)) "al" = false.
Proof.
  assert (Hs : reachable (keccak := packed_pair) two_users)
    by (unfold two_users, fresh; cbn [run]; reach).
  assert (Hrun : changeUsername (at_time 1) "al" two_users
                 = (Done tt, snd (changeUsername (at_time 1) "al" two_users)))
    by (by vm_compute).
  destruct (@changeUsername_swaps_names packed_pair _ _ _ _ Hs Hrun)
    as (_ & Hafter & _).
  exact Hafter.
Defined.

Lemma counters_match_arrays_witness : counters_consistent two_users.
Proof.
  apply (proj1 (@counters_match_arrays packed_pair)).
  unfold two_users, fresh. cbn [run]. reach.
Defined.

Lemma partner_lists_symmetric_witness :
  occurrences 2 (getUserConversations chatting 1)
  = occurrences 1 (getUserConversations chatting 2) /\
  isInConversation chatting 1 2 = isInConversation chatting 2 1.
Proof.
  apply (@partner_lists_symmetric packed_pair).
  unfold chatting, two_users, fresh. cbn [run]. reach.
Defined.

Lemma self_message_appends_twice_witness :
  getUserConversations
    (snd (sendDirectMessage (keccak := packed_pair) (at_time 1) 1 "note"
            two_users)) 1
  = getUserConversations two_users 1 ++ [1; 1].
Proof.
  assert (Hrun : sendDirectMessage (keccak := packed_pair) (at_time 1)
                   (msg_sender (at_time 1)) "note" two_users
                 = (Done tt,
                    snd (sendDirectMessage (keccak := packed_pair)
                           (at_time 1) 1 "note" two_users)))
    by (by vm_compute).
  assert (Hnot : isInConversation two_users (msg_sender (at_time 1))
                   (msg_sender (at_time 1)) = false)
    by (by vm_compute).
  destruct (@self_message_appends_twice packed_pair _ _ _ _ Hrun Hnot)
    as (_ & Hlist & _).
  exact Hlist.
Defined.

(** ** The client *)

(** X27.  A guarded route shows its page only when the wallet is not
    connecting, the component has recorded that its checks are done, the
    registration check is not pending if the route requires registration,
    the wallet is connected if the route requires it, and a connected wallet
    is registered if the route requires that; with both requirements, as on
    the chat and profile routes, the page is shown only to a connected,
    registered user whose registration check has finished.  A connected,
    registered user never gets the page of the register route.  (A route
    that does not require registration does show its page while the
    registration check is still pending.) *)
Theorem ProtectedRoute_guards
    requireConnection requireRegistration isConnecting isConnected
    isCheckingRegistration isRegistered hasCheckedRequirements
    pathname fromPathname :
  let view := ProtectedRoute requireConnection requireRegistration
                isConnecting isConnected isCheckingRegistration isRegistered
                hasCheckedRequirements pathname fromPathname in
  (view = Children ->
   isConnecting = false /\ hasCheckedRequirements = true /\
   (requireRegistration = true -> isCheckingRegistration = false) /\
   (requireConnection = true -> isConnected = true) /\
   (requireRegistration = true -> isConnected = true ->
    isRegistered = true) /\
   (requireConnection = true -> requireRegistration = true ->
    isConnected = true /\ isRegistered = true /\
    isCheckingRegistration = false)) /\
  (pathname = "/register" -> isConnected = true -> isRegistered = true ->
   view <> Children) /\
  (requireRegistration = false -> isConnecting = false ->
   hasCheckedRequirements = true ->
   (requireConnection = true -> isConnected = true) ->
   (pathname = "/register" -> isConnected = true -> isRegistered = false) ->
   view = Children).
Proof.
  unfold ProtectedRoute. split; [|split].
  - destruct requireConnection, requireRegistration, isConnecting, isConnected,
      isCheckingRegistration, isRegistered, hasCheckedRequirements; cbn;
      repeat case_bool_decide; cbn; try done; intros _; repeat split; done.
  - intros -> -> ->.
    destruct requireConnection, requireRegistration, isConnecting,
      isCheckingRegistration, hasCheckedRequirements; cbn;
      repeat case_bool_decide; done.
  - intros -> -> -> Hconn Hreg.
    destruct requireConnection, isConnected, isCheckingRegistration,
      isRegistered; cbn; repeat case_bool_decide; cbn; try done;
      try (by discriminate Hconn); by discriminate Hreg.
Qed.

(** X28.  The "Verifying registration..." screen of [ProtectedRoute] is
    dead code: it asks for unfinished checks, and with unfinished checks the
    loading screen has already been returned. *)
Theorem ProtectedRoute_never_verifying
    requireConnection requireRegistration isConnecting isConnected
    isCheckingRegistration isRegistered hasCheckedRequirements
    pathname fromPathname :
  ProtectedRoute requireConnection requireRegistration
    isConnecting isConnected isCheckingRegistration isRegistered
    hasCheckedRequirements pathname fromPathname
  <> VerifyingScreen.
Proof.
  unfold ProtectedRoute.
  destruct requireConnection, requireRegistration, isConnecting, isConnected,
    isCheckingRegistration, isRegistered, hasCheckedRequirements; cbn;
    try done; repeat case_bool_decide; done.
Qed.

Lemma strip_prefix_app pat rest : strip_prefix pat (pat ++ rest) = Some rest.
Proof.
  induction pat as [|p pat IH]; cbn; [done|]. by rewrite N.eqb_refl.
Qed.

Lemma replace_first_absent pat s :
  includes pat s = false -> replace_first pat s = s.
Proof.
  induction s as [|c s IH]; cbn.
  - by destruct (strip_prefix pat []).
  - destruct (strip_prefix pat (c :: s)); [done|].
    intros Hs. by rewrite IH.
Qed.

(** X29.  [getIPFSUrl] undoes what registration does to a picture hash: the
    reference [ipfs://<hash>] stored in the profile comes back as the
    gateway followed by exactly that hash.  A reference that does not
    contain [ipfs://] is appended to the gateway unchanged, and the empty
    reference gives [null]. *)
Theorem getIPFSUrl_round_trip gateway :
  (forall hash,
     getIPFSUrl gateway (registered_reference hash) = Some (gateway ++ hash)) /\
  (forall ref, ref <> [] -> includes (code_units "ipfs://") ref = false ->
     getIPFSUrl gateway ref = Some (gateway ++ ref)) /\
  getIPFSUrl gateway [] = None.
Proof.
  split; [|split; [|done]].
  - intros hash. unfold getIPFSUrl, registered_reference.
    destruct (code_units "ipfs://" ++ hash) eqn:E; [done|].
    rewrite <- E. unfold replace_first.
    destruct (code_units "ipfs://" ++ hash) eqn:E'; [done|].
    rewrite <- E'. by rewrite strip_prefix_app.
  - intros ref Hne Habsent. unfold getIPFSUrl.
    destruct ref; [done|]. by rewrite replace_first_absent.
Qed.

(** ** Concrete runs of the further properties *)

Ltac reach_from_fresh :=
  unfold after_scenario, chatting, two_users, scenario_run, fresh;
  cbn [run]; reach.

Lemma unregistered_profile_is_zero_witness :
  getUserProfile two_users 7 = zero_profile.
Proof.
  apply (@unregistered_profile_is_zero packed_pair two_users);
    [reach_from_fresh | by vm_compute].
Defined.

Lemma registered_usernames_valid_witness :
  0 < bytes_length (username (getUserProfile two_users 1)) /\
  bytes_length (username (getUserProfile two_users 1)) <= 50.
Proof.
  apply (@registered_usernames_valid packed_pair two_users);
    [reach_from_fresh | by vm_compute].
Defined.

Lemma claimed_name_has_owner_witness :
  isUserRegistered two_users (usernameToAddress_at two_users "bob") = true /\
  username (getUserProfile two_users (usernameToAddress_at two_users "bob"))
  = "bob".
Proof.
  apply (@claimed_name_has_owner packed_pair two_users);
    [reach_from_fresh | by vm_compute].
Defined.

Lemma registeredUsers_exact_witness :
  NoDup (getAllRegisteredUsers two_users) /\
  (2 ∈ getAllRegisteredUsers two_users
   <-> isUserRegistered two_users 2 = true).
Proof.
  destruct (@registeredUsers_exact packed_pair two_users) as [Hnodup Hin];
    [reach_from_fresh|].
  split; [exact Hnodup | apply Hin].
Defined.

Lemma messagesSent_counts_messages_witness :
  totalMessagesSent (getUserProfile after_scenario 2)
  = N.of_nat (messages_by 2 (getGeneralChatMessages after_scenario)).
Proof.
  apply (@messagesSent_counts_messages packed_pair after_scenario).
  reach_from_fresh.
Defined.

Lemma stored_messages_wellformed_witness :
  isUserRegistered after_scenario
    (sender (mkMessage 2 "hello" 1700000000 1)) = true /\
  0 < bytes_length (content (mkMessage 2 "hello" 1700000000 1)) /\
  bytes_length (content (mkMessage 2 "hello" 1700000000 1)) <= 1000.
Proof.
  apply (@stored_messages_wellformed packed_pair after_scenario);
    [reach_from_fresh|].
  replace (getGeneralChatMessages after_scenario)
    with [mkMessage 1 "hi" 1700000000 0; mkMessage 2 "hello" 1700000000 1]
    by (by vm_compute).
  right. left.
Defined.

Lemma sendMessage_succeeds_iff_witness :
  succeeds (keccak := packed_pair) two_users (at_time 1) (SendMessage "hi")
  = true <->
  isUserRegistered two_users (msg_sender (at_time 1)) = true /\
  0 < bytes_length "hi" /\ bytes_length "hi" <= 1000 /\
  totalMessages two_users < MAX_UINT256.
Proof.
  apply (@sendMessage_succeeds_iff packed_pair two_users). reach_from_fresh.
Defined.

Lemma sendDirectMessage_appends_witness :
  getConversation (keccak := packed_pair)
    (snd (sendDirectMessage (keccak := packed_pair) (at_time 1) 2 "yo"
            two_users)) 2 1
  = getConversation (keccak := packed_pair) two_users 2 1 ++
    [mkDirectMessage 1 2 "yo" 1700000000 false].
Proof.
  assert (Hrun : sendDirectMessage (keccak := packed_pair) (at_time 1) 2 "yo"
                   two_users
                 = (Done tt,
                    snd (sendDirectMessage (keccak := packed_pair)
                           (at_time 1) 2 "yo" two_users)))
    by (by vm_compute).
  destruct (@sendDirectMessage_appends packed_pair _ _ _ _ _ Hrun)
    as (_ & Hother & _).
  exact Hother.
Defined.

Lemma direct_messages_wellformed_witness :
  isRead (mkDirectMessage 2 1 "hey" 1700000000 false) = false /\
  isUserRegistered chatting 2 = true /\
  isUserRegistered chatting 1 = true /\
  0 < bytes_length "hey" /\ bytes_length "hey" <= 1000 /\
  conversationHash (keccak := packed_pair) 1 2
  = conversationHash (keccak := packed_pair) 2 1.
Proof.
  apply (@direct_messages_wellformed packed_pair chatting
           ltac:(reach_from_fresh)
           (conversationHash (keccak := packed_pair) 1 2)
           (mkDirectMessage 2 1 "hey" 1700000000 false)).
  replace (conversations_at chatting (conversationHash (keccak := packed_pair) 1 2))
    with [mkDirectMessage 1 2 "yo" 1700000000 false;
          mkDirectMessage 2 1 "hey" 1700000000 false]
    by (by vm_compute).
  right. left.
Defined.

Lemma partners_have_messages_witness :
  getConversation (keccak := packed_pair) chatting 2 1 <> [].
Proof.
  apply (@partners_have_messages packed_pair chatting);
    [reach_from_fresh | by vm_compute].
Defined.

Lemma updateProfilePicture_effect_witness :
  ipfsProfilePicHash
    (getUserProfile
       (transact (keccak := packed_pair) two_users (at_time 1)
                 (UpdateProfilePicture "ipfs://new")) 1)
  = "ipfs://new".
Proof.
  destruct (@updateProfilePicture_effect packed_pair two_users (at_time 1)
              "ipfs://new") as [_ Heffect].
  destruct Heffect as (Hpic & _); [by vm_compute | exact Hpic].
Defined.

Lemma updateProfilePicture_overwrites_witness :
  transact (keccak := packed_pair)
    (transact (keccak := packed_pair) two_users (at_time 1)
       (UpdateProfilePicture "ipfs://first"))
    (mkEnv 1 1700000900) (UpdateProfilePicture "ipfs://second")
  = transact (keccak := packed_pair) two_users (mkEnv 1 1700000900)
      (UpdateProfilePicture "ipfs://second").
Proof.
  apply (@updateProfilePicture_overwrites packed_pair). reflexivity.
Defined.

Lemma only_owner_administers_witness :
  getAllPrices (oracle := two_feeds)
    (transact (keccak := packed_pair) two_users (at_time 1)
              (UpdatePriceFeeds 1 2 3))
  = getAllPrices (oracle := two_feeds) two_users.
Proof.
  destruct (@only_owner_administers packed_pair two_feeds two_users
              (at_time 1) (UpdatePriceFeeds 1 2 3))
    as (_ & _ & _ & _ & Hprices & _); [by vm_compute | exact Hprices].
Defined.

Lemma owner_never_zero_witness :
  owner (run (keccak := packed_pair) (constructor 9 101 102 103)
           [(at_time 9, TransferOwnership 0);
            (at_time 9, TransferOwnership 1)])
  <> address0.
Proof. apply (@owner_never_zero packed_pair). by vm_compute. Defined.

Lemma transferOwnership_hands_over_witness :
  owner (transact (keccak := packed_pair) fresh (at_time 9)
           (TransferOwnership 1)) = 1.
Proof.
  destruct (@transferOwnership_hands_over packed_pair fresh (at_time 9) 1)
    as (_ & Howner & _); [by vm_compute | by vm_compute | exact Howner].
Defined.

Lemma registration_is_permanent_witness :
  isUserRegistered
    (run (keccak := packed_pair) two_users
       [(at_time 1, ChangeUsername "al");
        (at_time 1, RegisterUser "alice" "again")]) 1 = true.
Proof.
  destruct (@registration_is_permanent packed_pair
              [(at_time 1, ChangeUsername "al");
               (at_time 1, RegisterUser "alice" "again")] two_users 1)
    as (Hreg & _); [by vm_compute | exact Hreg].
Defined.

Lemma events_mirror_arrays_witness :
  registered_from_events (events after_scenario)
  = getAllRegisteredUsers after_scenario /\
  messages_from_events (events after_scenario)
  = getGeneralChatMessages after_scenario.
Proof.
  apply (@events_mirror_arrays packed_pair after_scenario).
  reach_from_fresh.
Defined.

Lemma userMessages_never_written_witness : userMessages chatting = ∅.
Proof.
  apply (@userMessages_never_written packed_pair chatting).
  reach_from_fresh.
Defined.

Lemma changeUsername_round_trip_witness :
  exists s2,
    changeUsername (mkEnv 1 1700000600) "alice"
      (snd (changeUsername (at_time 1) "al" two_users)) = (Done tt, s2) /\
    (forall v, usernameToAddress_at s2 v = usernameToAddress_at two_users v) /\
    (forall b, getUserProfile s2 b = getUserProfile two_users b).
Proof.
  assert (Hrun : changeUsername (at_time 1) "al" two_users
                 = (Done tt, snd (changeUsername (at_time 1) "al" two_users)))
    by (by vm_compute).
  assert (Hs : reachable (keccak := packed_pair) two_users)
    by reach_from_fresh.
  exact (@changeUsername_round_trip packed_pair _ _ _ _ 1700000600 Hs Hrun).
Defined.

Lemma released_name_can_be_registered_witness :
  succeeds (keccak := packed_pair)
    (snd (changeUsername (at_time 1) "al" two_users)) (at_time 3)
    (RegisterUser (username (getUserProfile two_users (msg_sender (at_time 1))))
                  "ref3")
  = true.
Proof.
  apply (@released_name_can_be_registered packed_pair two_users (at_time 1)
           "al");
    [reach_from_fresh | by vm_compute | by vm_compute | by vm_compute].
Defined.

Lemma different_partners_listed_once_witness :
  occurrences 2
    (getUserConversations
       (run (keccak := packed_pair)
          (snd (sendDirectMessage (keccak := packed_pair) (at_time 1) 2 "yo"
                  two_users))
          [(at_time 2, SendDirectMessage 1 "hey");
           (at_time 1, SendDirectMessage 2 "again")]) 1) = 1%nat.
Proof.
  assert (Hrun : sendDirectMessage (keccak := packed_pair) (at_time 1) 2 "yo"
                   two_users
                 = (Done tt,
                    snd (sendDirectMessage (keccak := packed_pair)
                           (at_time 1) 2 "yo" two_users)))
    by (by vm_compute).
  assert (Hs : reachable (keccak := packed_pair) two_users)
    by reach_from_fresh.
  assert (Hab : msg_sender (at_time 1) <> 2) by (by vm_compute).
  destruct (@different_partners_listed_once packed_pair _ _ _ _ _ Hs Hab Hrun
              [(at_time 2, SendDirectMessage 1 "hey");
               (at_time 1, SendDirectMessage 2 "again")]) as [Hone _];
    [repeat constructor; by vm_compute | exact Hone].
Defined.

Lemma ProtectedRoute_guards_witness :
  (false = false /\ true = true /\
   (true = true -> false = false) /\
   (true = true -> true = true) /\
   (true = true -> true = true -> true = true) /\
   (true = true -> true = true ->
    true = true /\ true = true /\ false = false)) /\
  ProtectedRoute true false false true false true true "/register" None
  <> Children /\
  ProtectedRoute true false false true true false true "/register" None
  = Children.
Proof.
  split; [|split].
  - apply (proj1 (ProtectedRoute_guards true true false true false true true
                    "/chat" None)). reflexivity.
  - by apply (proj1 (proj2 (ProtectedRoute_guards true false false true false
                              true true "/register" None))).
  - apply (proj2 (proj2 (ProtectedRoute_guards true false false true true
                           false true "/register" None))); done.
Defined.

Lemma getIPFSUrl_round_trip_witness :
  getIPFSUrl (code_units "https://gateway.pinata.cloud/ipfs/")
             (code_units "QmYwAPJzv5CZsnA")
  = Some (code_units "https://gateway.pinata.cloud/ipfs/" ++
          code_units "QmYwAPJzv5CZsnA").
Proof.
  apply (proj1 (proj2 (getIPFSUrl_round_trip
                         (code_units "https://gateway.pinata.cloud/ipfs/"))));
    by vm_compute.
Defined.
